(** * Realtime collaboration hook: a shallow embedding

    Source: [src/hooks/use-realtime-collaboration.ts]; the drag and
    pending-file handlers of [src/hooks/use-file-attachments.ts] follow in
    a module of their own.

    The hook keeps a list of remote participants, assigns the local user a
    colour from a fixed palette, broadcasts typed actions over a pub/sub
    channel and reacts to three inbound broadcast events.  React state and
    refs become the fields of one record, the callbacks supplied by the
    caller and the calls into the host (channel, timers, beacon, console)
    become entries of an effect trace, and a handler that can raise returns
    in [Js].  Setters take effect at once: a state updater handed to React
    is run where it is handed over.

    Numbers are integers here: time stamps come from [Date.now()], and
    cursor coordinates are carried through without being looked at.  The
    one number that is computed with, [Math.random()], is a rational. *)

From Stdlib Require Import QArith Qround.
From stdpp Require Import base decidable option numbers list strings.

Local Open Scope string_scope.
Local Open Scope list_scope.
Local Open Scope Z_scope.

(** ** Host values *)

(** The two errors the host can raise inside this hook: reading a property
    of [undefined]/[null], and [Date.prototype.toISOString] on an invalid
    date. *)
Inductive JsError := TypeError | RangeError.

#[global] Instance JsError_eq_dec : EqDecision JsError.
Proof. solve_decision. Defined.

(** ** Computations that can raise *)

Inductive Js (A : Type) :=
  | Throw (e : JsError)
  | Return (a : A).
Arguments Throw {A} e.
Arguments Return {A} a.

#[global] Instance Js_ret : MRet Js := λ A a, Return a.
#[global] Instance Js_bind : MBind Js := λ A B k m,
  match m with
  | Throw e => Throw e
  | Return a => k a
  end.

(** [try { body } catch (error) { handler }] *)
Definition try_catch {A} (body : Js A) (handler : JsError → A) : A :=
  match body with
  | Throw e => handler e
  | Return a => a
  end.

(** [Date]: a time value is an integer number of milliseconds since the
    epoch, or NaN (here [None]).  [new Date(v)] clips [v] to the range
    of +-8.64e15 ms; [toISOString] raises [RangeError] on NaN. *)
Module JsDate.

Definition maxTime : Z := 8640000000000000.
Definition msPerDay : Z := 86400000.

Definition TimeClip (t : Z) : option Z :=
  if bool_decide (Z.abs t ≤ maxTime) then Some t else None.

(** [new Date(value)] for a numeric or absent ([undefined]) argument. *)
Definition construct (value : option Z) : option Z :=
  match value with
  | Some t => TimeClip t
  | None => None
  end.

Definition digit (d : Z) : Ascii.ascii :=
  Ascii.ascii_of_nat (Z.to_nat (48 + d `mod` 10)).

(** The [n] low decimal digits of [z], most significant first. *)
Fixpoint pad (n : nat) (z : Z) : string :=
  match n with
  | O => ""
  | S n' => pad n' (z `div` 10) +:+ String (digit z) ""
  end.

(** Proleptic Gregorian date of a day number (days since 1970-01-01). *)
Definition civil_from_days (days : Z) : Z * Z * Z :=
  let z := days + 719468 in
  let era := z `div` 146097 in
  let doe := z - era * 146097 in
  let yoe := (doe - doe `div` 1460 + doe `div` 36524 - doe `div` 146096) `div` 365 in
  let doy := doe - (365 * yoe + yoe `div` 4 - yoe `div` 100) in
  let mp := (5 * doy + 2) `div` 153 in
  let d := doy - (153 * mp + 2) `div` 5 + 1 in
  let m := if bool_decide (mp < 10) then mp + 3 else mp - 9 in
  let y := yoe + era * 400 + (if bool_decide (m ≤ 2) then 1 else 0) in
  (y, m, d).

Definition year_string (y : Z) : string :=
  if bool_decide (0 ≤ y ≤ 9999) then pad 4 y
  else if bool_decide (y < 0) then "-" +:+ pad 6 (- y)
  else "+" +:+ pad 6 y.

Definition format (t : Z) : string :=
  let days := t `div` msPerDay in
  let ms := t `mod` msPerDay in
  let '(y, m, d) := civil_from_days days in
  year_string y +:+ "-" +:+ pad 2 m +:+ "-" +:+ pad 2 d +:+ "T"
    +:+ pad 2 (ms `div` 3600000) +:+ ":"
    +:+ pad 2 ((ms `div` 60000) `mod` 60) +:+ ":"
    +:+ pad 2 ((ms `div` 1000) `mod` 60) +:+ "."
    +:+ pad 3 (ms `mod` 1000) +:+ "Z".

Definition toISOString (tv : option Z) : Js string :=
  match tv with
  | Some t => Return (format t)
  | None => Throw RangeError
  end.

End JsDate.

(** ** Types of the hook *)

Inductive ActionType :=
  | node_move | node_select | node_create | node_delete
  | cursor_move | user_join | user_leave.

#[global] Instance ActionType_eq_dec : EqDecision ActionType.
Proof. solve_decision. Defined.

Record Position := { x : Z; y : Z }.

#[global] Instance Position_eq_dec : EqDecision Position.
Proof. solve_decision. Defined.

(** [data?: Record<string, unknown>]: carried through, never inspected. *)
Definition ActionData := list (string * string).

(** [MindMapAction] as it travels on the wire.  The receive handlers only
    cast the payload, so a field the interface declares as required can be
    absent at run time: every field is an [option], [None] standing for
    [undefined]. *)
Module MindMapAction.
Record t := mk {
  type : option ActionType;
  nodeId : option string;
  position : option Position;
  userId : option string;
  userName : option string;
  userColor : option string;
  timestamp : option Z;
  data : option ActionData
}.

#[global] Instance MindMapAction_eq_dec : EqDecision t.
Proof. solve_decision. Defined.
End MindMapAction.

(** [Omit<MindMapAction, "userId" | "userName" | "userColor" | "timestamp">],
    the argument of [broadcastAction], built by local, typed code. *)
Module ActionInput.
Record t := mk {
  type : ActionType;
  nodeId : option string;
  position : option Position;
  data : option ActionData
}.
End ActionInput.

(** [CollaborativeUser] as the join handler builds it ([email] and
    [cursor] are never set by the hook). *)
Module CollaborativeUser.
Record t := mk {
  id : option string;
  name : option string;
  color : option string;
  online_at : string
}.

#[global] Instance CollaborativeUser_eq_dec : EqDecision t.
Proof. solve_decision. Defined.
End CollaborativeUser.

Abbreviation Users := (list CollaborativeUser.t).

(** What the transport hands to a handler as [payload]. *)
Inductive JsPrimitive := JsString (s : string) | JsNumber (n : Z) | JsBoolean (b : bool).

Inductive Payload :=
  | PUndefined
  | PNull
  | PPrimitive (v : JsPrimitive)
  | PObject (a : MindMapAction.t).

(** ** Constants *)

Definition USER_COLORS : list string :=
  [ "#3B82F6"; "#EF4444"; "#10B981"; "#F59E0B";
    "#8B5CF6"; "#EC4899"; "#06B6D4"; "#84CC16" ].

Definition EVENT_ACTION_TYPE : string := "mind_map_action".
Definition EVENT_USER_JOIN_TYPE : string := "user_join".
Definition EVENT_USER_LEAVE_TYPE : string := "user_leave".


(** [payload as MindMapAction] followed by a property read.  The cast does
    nothing at run time: reading a property of [undefined] or [null] raises
    [TypeError], reading one of a primitive gives [undefined]. *)
Definition property {A} (field : MindMapAction.t → option A) (payload : Payload)
    : Js (option A) :=
  match payload with
  | PUndefined | PNull => Throw TypeError
  | PPrimitive _ => Return None
  | PObject a => Return (field a)
  end.

(** ** State of one hook instance *)

(** The caller's callbacks are opaque: a callback is known by a name, and
    calling it is an effect. *)
Definition Callback := nat.
Definition TimerId := nat.

(** What the join-announcement timer callback has captured. *)
Record JoinClosure := {
  jc_channel : string;
  jc_userId : string;
  jc_userName : string;
  jc_userColor : string
}.

Module Props.
Record t := mk {
  chatId : string;
  userId : string;
  userName : string;
  onAction : option Callback;
  onPresenceChange : option Callback
}.
End Props.

(** [useState] cells, [useRef] cells, and the part of the host's timer
    table that belongs to this hook.  A channel is known by its topic. *)
Record HookState := {
  isConnected : bool;
  collaborativeUsers : Users;
  userColor : string;
  shouldAnnounceJoin : bool;
  channel : option string;
  onActionRef : option Callback;
  onPresenceChangeRef : option Callback;
  userColorRef : string;
  isConnectedRef : bool;
  announceTimeoutRef : option TimerId;
  pendingTimers : list (TimerId * JoinClosure);
  nextTimer : TimerId
}.

Inductive Effect :=
  | CallOnAction (f : Callback) (action : Payload)
  | CallOnPresenceChange (f : Callback) (users : Users)
  | ChannelSend (topic event : string) (payload : MindMapAction.t)
  | SendBeacon (url chatId : string) (action : MindMapAction.t)
  | SetTimeout (handle : TimerId) (delay : Z)
  | ClearTimeout (handle : TimerId)
  | CreateChannel (topic : string)
  | Subscribe (topic : string)
  | RemoveChannel (topic : string)
  | ConsoleLog (msg : string)
  | ConsoleWarn (msg : string)
  | ConsoleError (msg : string).

(** [Math.random()]: a number in [[0, 1)]. *)
Record MathRandom := {
  rnd : Q;
  rnd_range : (0 <= rnd)%Q ∧ (rnd < 1)%Q
}.

(** [navigator.sendBeacon]: absent ([navigator] undefined or without the
    method), present and returning a boolean, or present and raising. *)
Inductive Beacon :=
  | BeaconMissing
  | BeaconReturns (queued : bool)
  | BeaconThrows (e : JsError).

(** What an operation reads from the host when it runs. *)
Record Host := {
  now : Z;
  random : MathRandom;
  beacon : Beacon;
  sendResult : Js unit
}.

Inductive Status :=
  | SUBSCRIBED | CHANNEL_ERROR | TIMED_OUT | CLOSED
  | OtherStatus (s : string).

Definition initialState (p : Props.t) : HookState :=
  {| isConnected := false;
     collaborativeUsers := [];
     userColor := "#3B82F6";
     shouldAnnounceJoin := false;
     channel := None;
     onActionRef := Props.onAction p;
     onPresenceChangeRef := Props.onPresenceChange p;
     userColorRef := "#3B82F6";
     isConnectedRef := false;
     announceTimeoutRef := None;
     pendingTimers := [];
     nextTimer := 1%nat |}.

Definition setCollaborativeUsers (us : Users) (st : HookState) : HookState :=
  {| isConnected := isConnected st;
     collaborativeUsers := us;
     userColor := userColor st;
     shouldAnnounceJoin := shouldAnnounceJoin st;
     channel := channel st;
     onActionRef := onActionRef st;
     onPresenceChangeRef := onPresenceChangeRef st;
     userColorRef := userColorRef st;
     isConnectedRef := isConnectedRef st;
     announceTimeoutRef := announceTimeoutRef st;
     pendingTimers := pendingTimers st;
     nextTimer := nextTimer st |}.

Definition setIsConnected (b : bool) (st : HookState) : HookState :=
  {| isConnected := b;
     collaborativeUsers := collaborativeUsers st;
     userColor := userColor st;
     shouldAnnounceJoin := shouldAnnounceJoin st;
     channel := channel st;
     onActionRef := onActionRef st;
     onPresenceChangeRef := onPresenceChangeRef st;
     userColorRef := userColorRef st;
     isConnectedRef := isConnectedRef st;
     announceTimeoutRef := announceTimeoutRef st;
     pendingTimers := pendingTimers st;
     nextTimer := nextTimer st |}.

Definition setUserColor (c : string) (st : HookState) : HookState :=
  {| isConnected := isConnected st;
     collaborativeUsers := collaborativeUsers st;
     userColor := c;
     shouldAnnounceJoin := shouldAnnounceJoin st;
     channel := channel st;
     onActionRef := onActionRef st;
     onPresenceChangeRef := onPresenceChangeRef st;
     userColorRef := userColorRef st;
     isConnectedRef := isConnectedRef st;
     announceTimeoutRef := announceTimeoutRef st;
     pendingTimers := pendingTimers st;
     nextTimer := nextTimer st |}.

Definition setShouldAnnounceJoin (b : bool) (st : HookState) : HookState :=
  {| isConnected := isConnected st;
     collaborativeUsers := collaborativeUsers st;
     userColor := userColor st;
     shouldAnnounceJoin := b;
     channel := channel st;
     onActionRef := onActionRef st;
     onPresenceChangeRef := onPresenceChangeRef st;
     userColorRef := userColorRef st;
     isConnectedRef := isConnectedRef st;
     announceTimeoutRef := announceTimeoutRef st;
     pendingTimers := pendingTimers st;
     nextTimer := nextTimer st |}.

Definition setChannel (c : option string) (st : HookState) : HookState :=
  {| isConnected := isConnected st;
     collaborativeUsers := collaborativeUsers st;
     userColor := userColor st;
     shouldAnnounceJoin := shouldAnnounceJoin st;
     channel := c;
     onActionRef := onActionRef st;
     onPresenceChangeRef := onPresenceChangeRef st;
     userColorRef := userColorRef st;
     isConnectedRef := isConnectedRef st;
     announceTimeoutRef := announceTimeoutRef st;
     pendingTimers := pendingTimers st;
     nextTimer := nextTimer st |}.

(** Assignments to the timer ref and to the host's timer table. *)
Definition setTimers (ref : option TimerId) (pending : list (TimerId * JoinClosure))
    (next : TimerId) (st : HookState) : HookState :=
  {| isConnected := isConnected st;
     collaborativeUsers := collaborativeUsers st;
     userColor := userColor st;
     shouldAnnounceJoin := shouldAnnounceJoin st;
     channel := channel st;
     onActionRef := onActionRef st;
     onPresenceChangeRef := onPresenceChangeRef st;
     userColorRef := userColorRef st;
     isConnectedRef := isConnectedRef st;
     announceTimeoutRef := ref;
     pendingTimers := pending;
     nextTimer := next |}.

(** The four ref-synchronising effects (source lines 88-103), run after a
    render commits. *)
Definition syncRefs (p : Props.t) (st : HookState) : HookState :=
  {| isConnected := isConnected st;
     collaborativeUsers := collaborativeUsers st;
     userColor := userColor st;
     shouldAnnounceJoin := shouldAnnounceJoin st;
     channel := channel st;
     onActionRef := Props.onAction p;
     onPresenceChangeRef := Props.onPresenceChange p;
     userColorRef := userColor st;
     isConnectedRef := isConnected st;
     announceTimeoutRef := announceTimeoutRef st;
     pendingTimers := pendingTimers st;
     nextTimer := nextTimer st |}.

(** ** Presence registry *)

(** [ref.current?.(arg)] *)
Definition callOptional {A} (ref : option Callback)
    (call : Callback → A → Effect) (arg : A) : list Effect :=
  match ref with
  | Some f => [call f arg]
  | None => []
  end.

(** The [user_join] registry update (source lines 226-238): the new entry,
    and the state updater that replaces any entry of the same id by it and
    reports the new list. *)
Definition upsertOnJoin (onPresenceChange : option Callback)
    (userId name color : option string) (online_at : string)
    (current : Users) : Users * list Effect :=
  let newUser :=
    {| CollaborativeUser.id := userId;
       CollaborativeUser.name := name;
       CollaborativeUser.color := color;
       CollaborativeUser.online_at := online_at |} in
  let filtered := filter (λ u, CollaborativeUser.id u ≠ userId) current in
  let updated := filtered ++ [newUser] in
  (updated, callOptional onPresenceChange CallOnPresenceChange updated).

(** The [user_leave] registry update (source lines 251-255). *)
Definition removeOnLeave (onPresenceChange : option Callback)
    (userId : option string) (current : Users) : Users * list Effect :=
  let updated := filter (λ u, CollaborativeUser.id u ≠ userId) current in
  (updated, callOptional onPresenceChange CallOnPresenceChange updated).

(** [currentUsers.some((user) => user.color === color)] *)
Definition inUse (currentUsers : Users) (color : string) : Prop :=
  Exists (λ user, CollaborativeUser.color user = Some color) currentUsers.

#[global] Instance inUse_dec currentUsers color : Decision (inUse currentUsers color).
Proof. unfold inUse. apply _. Defined.

Definition availableColors (currentUsers : Users) : list string :=
  filter (λ color, ¬ inUse currentUsers color) USER_COLORS.

(** [Math.floor(Math.random() * USER_COLORS.length)] *)
Definition randomIndex (r : MathRandom) : nat :=
  Z.to_nat (Qfloor (rnd r * inject_Z (Z.of_nat (length USER_COLORS)))).

(** [a || b] on strings: [undefined] and the empty string are falsy. *)
Definition js_or (a : option string) (b : string) : string :=
  match a with
  | Some s => if bool_decide (s = "") then b else s
  | None => b
  end.

(** Colour assignment (source lines 267-272). *)
Definition assignColor (r : MathRandom) (currentUsers : Users) : string :=
  js_or (head (availableColors currentUsers)) (USER_COLORS !!! randomIndex r).

(** ** Receive handlers *)

(** Handler of [mind_map_action] (source lines 207-214). *)
Definition onMindMapAction (p : Props.t) (st : HookState) (payload : Payload)
    : Js (HookState * list Effect) :=
  uid ← property MindMapAction.userId payload;
  if bool_decide (uid = Some (Props.userId p)) then mret (st, [])
  else mret (st, callOptional (onActionRef st) CallOnAction payload).

(** Handler of [user_join] (source lines 217-240).  The state updater is
    run here, once: the effects returned are those of one run of the
    updater.  React runs the updater when it renders, and may run it more
    than once; what the list becomes does not depend on that. *)
Definition onUserJoin (p : Props.t) (st : HookState) (payload : Payload)
    : Js (HookState * list Effect) :=
  uid ← property MindMapAction.userId payload;
  if bool_decide (uid = Some (Props.userId p)) then mret (st, [])
  else
    name ← property MindMapAction.userName payload;
    color ← property MindMapAction.userColor payload;
    ts ← property MindMapAction.timestamp payload;
    online_at ← JsDate.toISOString (JsDate.construct ts);
    let '(updated, calls) :=
      upsertOnJoin (onPresenceChangeRef st) uid name color online_at
        (collaborativeUsers st) in
    mret (setCollaborativeUsers updated st, calls).

(** Handler of [user_leave] (source lines 243-257); the updater is run
    as in [onUserJoin]. *)
Definition onUserLeave (p : Props.t) (st : HookState) (payload : Payload)
    : Js (HookState * list Effect) :=
  uid ← property MindMapAction.userId payload;
  if bool_decide (uid = Some (Props.userId p)) then mret (st, [])
  else
    let '(updated, calls) :=
      removeOnLeave (onPresenceChangeRef st) uid (collaborativeUsers st) in
    mret (setCollaborativeUsers updated st, calls).

(** ** Session lifecycle *)

Definition roomName (chatId : string) : string :=
  "chat-collaboration:" +:+ chatId.

(** The channel effect up to [setChannel] (source lines 200-295): nothing
    without a [chatId] and a [userId]. *)
Definition initEffect (p : Props.t) (st : HookState) : HookState * list Effect :=
  if bool_decide (Props.chatId p = "") || bool_decide (Props.userId p = "")
  then (st, [])
  else
    let newChannel := roomName (Props.chatId p) in
    (setChannel (Some newChannel) st, [CreateChannel newChannel; Subscribe newChannel]).

(** The [subscribe] status callback (source lines 260-293). *)
Definition onStatus (p : Props.t) (env : Host) (st : HookState) (status : Status)
    : HookState * list Effect :=
  match status with
  | SUBSCRIBED =>
      let st1 := setIsConnected true st in
      let assignedColor := assignColor (random env) (collaborativeUsers st1) in
      (setShouldAnnounceJoin true (setUserColor assignedColor st1),
       [ConsoleLog ("Realtime collaboration connected to: " +:+ roomName (Props.chatId p))])
  | CHANNEL_ERROR =>
      (setIsConnected false st, [ConsoleError "Realtime channel error"])
  | TIMED_OUT =>
      (setIsConnected false st, [ConsoleError "Realtime connection timed out"])
  | CLOSED =>
      (setIsConnected false st, [ConsoleLog "Realtime channel closed"])
  | OtherStatus s =>
      (setIsConnected false st, [ConsoleLog ("Realtime collaboration status: " +:+ s)])
  end.

(** [clearTimeout(h)] on the timer table. *)
Definition clearTimeout (h : TimerId) (pending : list (TimerId * JoinClosure))
    : list (TimerId * JoinClosure) :=
  filter (λ e, e.1 ≠ h) pending.

(** [if (announceTimeoutRef.current) clearTimeout(announceTimeoutRef.current)] *)
Definition clearAnnounceTimeout (st : HookState)
    : list (TimerId * JoinClosure) * list Effect :=
  match announceTimeoutRef st with
  | Some h => (clearTimeout h (pendingTimers st), [ClearTimeout h])
  | None => (pendingTimers st, [])
  end.

(** The join-announcement effect (source lines 106-134). *)
Definition announceEffect (p : Props.t) (st : HookState) : HookState * list Effect :=
  match channel st with
  | Some ch =>
      if shouldAnnounceJoin st && isConnected st
         && negb (bool_decide (userColor st = ""))
      then
        let '(pending, cleared) := clearAnnounceTimeout st in
        let h := nextTimer st in
        let closure :=
          {| jc_channel := ch; jc_userId := Props.userId p;
             jc_userName := Props.userName p; jc_userColor := userColor st |} in
        (setTimers (Some h) ((h, closure) :: pending) (S h) st,
         cleared ++ [SetTimeout h 100])
      else (st, [])
  | None => (st, [])
  end.

(** Its cleanup (source lines 136-141), also the first statement of the
    channel effect's cleanup (source lines 300-303). *)
Definition announceCleanup (st : HookState) : HookState * list Effect :=
  let '(pending, cleared) := clearAnnounceTimeout st in
  match announceTimeoutRef st with
  | Some _ => (setTimers None pending (nextTimer st) st, cleared)
  | None => (st, [])
  end.

(** The timer callback (source lines 115-134), when timer [h] is due. *)
Definition timerFires (env : Host) (h : TimerId) (st : HookState)
    : HookState * list Effect :=
  match list_find (λ e, e.1 = h) (pendingTimers st) with
  | Some (_, (_, c)) =>
      let st1 :=
        setTimers (announceTimeoutRef st) (clearTimeout h (pendingTimers st))
          (nextTimer st) st in
      let joinAction :=
        {| MindMapAction.type := Some user_join;
           MindMapAction.nodeId := None;
           MindMapAction.position := None;
           MindMapAction.userId := Some (jc_userId c);
           MindMapAction.userName := Some (jc_userName c);
           MindMapAction.userColor := Some (jc_userColor c);
           MindMapAction.timestamp := Some (now env);
           MindMapAction.data := None |} in
      let sent := ChannelSend (jc_channel c) EVENT_USER_JOIN_TYPE joinAction in
      try_catch
        (_ ← sendResult env; mret (setShouldAnnounceJoin false st1, [sent]))
        (λ _, (st1, [sent; ConsoleWarn "Failed to announce user join:"]))
  | None => (st, [])
  end.

(** ** Action broadcaster *)

(** [broadcastAction] (source lines 145-173).  The function is [async]: its
    result stands for how the returned promise settles.  Of [st], the
    [channel] is the one the callback has captured when it was created, the
    two refs are read when it is called. *)
Definition broadcastAction (p : Props.t) (env : Host) (st : HookState)
    (action : ActionInput.t) : Js (list Effect) :=
  match channel st with
  | None => mret []
  | Some ch =>
      if negb (isConnectedRef st) then mret []
      else
        let fullAction :=
          {| MindMapAction.type := Some (ActionInput.type action);
             MindMapAction.nodeId := ActionInput.nodeId action;
             MindMapAction.position := ActionInput.position action;
             MindMapAction.data := ActionInput.data action;
             MindMapAction.userId := Some (Props.userId p);
             MindMapAction.userName := Some (Props.userName p);
             MindMapAction.userColor := Some (userColorRef st);
             MindMapAction.timestamp := Some (now env) |} in
        let sent := ChannelSend ch EVENT_ACTION_TYPE fullAction in
        mret (try_catch
                (_ ← sendResult env; mret [sent])
                (λ _, [sent; ConsoleWarn "Failed to broadcast action:"]))
  end.

(** [updateCursorPosition] (source lines 176-184). *)
Definition updateCursorPosition (p : Props.t) (env : Host) (st : HookState)
    (px py : Z) : Js (list Effect) :=
  broadcastAction p env st
    {| ActionInput.type := cursor_move;
       ActionInput.nodeId := None;
       ActionInput.position := Some {| x := px; y := py |};
       ActionInput.data := None |}.

(** [if (nodeId)]: [null] and the empty string are falsy. *)
Definition truthy (nodeId : option string) : bool :=
  match nodeId with
  | Some s => negb (bool_decide (s = ""))
  | None => false
  end.

(** [updateSelectedNode] (source lines 187-197); [None] is [null]. *)
Definition updateSelectedNode (p : Props.t) (env : Host) (st : HookState)
    (nodeId : option string) : Js (list Effect) :=
  if truthy nodeId then
    broadcastAction p env st
      {| ActionInput.type := node_select;
         ActionInput.nodeId := nodeId;
         ActionInput.position := None;
         ActionInput.data := None |}
  else mret [].

(** ** Teardown *)

Definition leaveAction (p : Props.t) (env : Host) (st : HookState) : MindMapAction.t :=
  {| MindMapAction.type := Some user_leave;
     MindMapAction.nodeId := None;
     MindMapAction.position := None;
     MindMapAction.userId := Some (Props.userId p);
     MindMapAction.userName := Some (Props.userName p);
     MindMapAction.userColor := Some (userColorRef st);
     MindMapAction.timestamp := Some (now env);
     MindMapAction.data := None |}.

Definition BEACON_URL : string := "/api/collaboration/beacon".

(** [newChannel.send({... user_leave ...}).catch(warn)]: the send is issued
    now, a rejection is reported once the promise settles. *)
Definition sendLeave (env : Host) (newChannel : string) (leave : MindMapAction.t)
    : list Effect * list Effect :=
  ([ChannelSend newChannel EVENT_USER_LEAVE_TYPE leave],
   try_catch (_ ← sendResult env; mret [])
     (λ _, [ConsoleWarn "Failed to announce user leave:"])).

(** The leave announcement (source lines 306-348): what is done before
    the cleanup goes on, and what is reported later.  The body handed to
    [sendBeacon] is [JSON.stringify({chatId, action})], kept as its two
    parts; serialising strings and a number does not raise, so inside the
    [try] only the beacon call can. *)
Definition announceLeave (p : Props.t) (env : Host) (st : HookState)
    : list Effect * list Effect :=
  let newChannel := roomName (Props.chatId p) in
  if isConnectedRef st then
    let leave := leaveAction p env st in
    let beaconCall := SendBeacon BEACON_URL (Props.chatId p) leave in
    match beacon env with
    | BeaconReturns _ => ([beaconCall], [])
    | BeaconThrows _ =>
        let '(now_, later) := sendLeave env newChannel leave in
        ([beaconCall; ConsoleWarn "Failed to send user leave beacon:"] ++ now_, later)
    | BeaconMissing => sendLeave env newChannel leave
    end
  else ([], []).

(** The cleanup of the channel effect (source lines 298-355). *)
Definition cleanup (p : Props.t) (env : Host) (st : HookState)
    : HookState * list Effect :=
  let newChannel := roomName (Props.chatId p) in
  let '(st1, cleared) := announceCleanup st in
  let '(announced, later) := announceLeave p env st1 in
  let st2 :=
    setShouldAnnounceJoin false
      (setCollaborativeUsers []
        (setIsConnected false
          (setChannel None st1))) in
  (st2, cleared ++ announced ++ [RemoveChannel newChannel] ++ later).

(** ** The hook as a transition system *)

Inductive Event :=
  | Mount
  | Commit
  | AnnounceEffect
  | AnnounceCleanup
  | TimerFires (h : TimerId)
  | ChannelStatus (status : Status)
  | InboundAction (payload : Payload)
  | InboundJoin (payload : Payload)
  | InboundLeave (payload : Payload)
  | Unmount.

Definition step (p : Props.t) (env : Host) (st : HookState) (ev : Event)
    : Js (HookState * list Effect) :=
  match ev with
  | Mount => mret (initEffect p st)
  | Commit => mret (syncRefs p st, [])
  | AnnounceEffect => mret (announceEffect p st)
  | AnnounceCleanup => mret (announceCleanup st)
  | TimerFires h => mret (timerFires env h st)
  | ChannelStatus status => mret (onStatus p env st status)
  | InboundAction payload => onMindMapAction p st payload
  | InboundJoin payload => onUserJoin p st payload
  | InboundLeave payload => onUserLeave p st payload
  | Unmount => mret (cleanup p env st)
  end.

(** A run: each event comes with the host it observes.  An event whose
    handler raises leaves the state as it was (the exception is the
    transport's to deal with) and the run goes on. *)
Fixpoint run (p : Props.t) (st : HookState) (evs : list (Host * Event))
    : HookState * list Effect :=
  match evs with
  | [] => (st, [])
  | (env, ev) :: rest =>
      match step p env st ev with
      | Return (st1, out) =>
          let '(st2, out2) := run p st1 rest in (st2, out ++ out2)
      | Throw _ => run p st rest
      end
  end.

Definition userIds (us : Users) : list (option string) :=
  CollaborativeUser.id <$> us.

(** At most one entry per [id]. *)
Definition uniqueIds (us : Users) : Prop := NoDup (userIds us).

(** The local user is not among the participants. *)
Definition selfExcluded (p : Props.t) (st : HookState) : Prop :=
  Some (Props.userId p) ∉ userIds (collaborativeUsers st).

(** Every pending join-announcement timer is the one the ref holds. *)
Definition timersOwned (st : HookState) : Prop :=
  ∀ e, e ∈ pendingTimers st → announceTimeoutRef st = Some e.1.

(** The states a hook instance can be in. *)
Inductive reachable (p : Props.t) : HookState → Prop :=
  | reachable_initial : reachable p (initialState p)
  | reachable_step env st ev st' out :
      reachable p st → step p env st ev = Return (st', out) → reachable p st'.

(** ** The file-attachments hook: drag state and pending files

    Source: [src/hooks/use-file-attachments.ts].  The counter is an integer:
    it only ever moves in steps of one. *)
Module FileAttachments.

(** What the hook reads of a [File]. *)
Record File := {
  name : string;
  type : string;
  size : Z
}.

(** [FileWithPreview]: a [File] with the two fields [addFiles] gives it. *)
Record FileWithPreview := {
  file : File;
  preview : option string;
  id : string
}.

(** The two state cells of the drag handlers. *)
Record DragState := {
  isDragOver : bool;
  dragCounter : Z
}.

Definition initialDrag : DragState :=
  {| isDragOver := false; dragCounter := 0 |}.

(** [handleDragEnter] (source lines 208-215); [hasItems] is
    [e.dataTransfer.items && e.dataTransfer.items.length > 0]. *)
Definition handleDragEnter (hasItems : bool) (s : DragState) : DragState :=
  {| dragCounter := dragCounter s + 1;
     isDragOver := if hasItems then true else isDragOver s |}.

(** [handleDragLeave] (source lines 217-228). *)
Definition handleDragLeave (s : DragState) : DragState :=
  let newCount := dragCounter s - 1 in
  if bool_decide (newCount ≤ 0)
  then {| isDragOver := false; dragCounter := 0 |}
  else {| isDragOver := isDragOver s; dragCounter := newCount |}.

(** [handleDragOver] (source lines 230-233) only stops the event. *)
Definition handleDragOver (s : DragState) : DragState := s.

(** [handleDrop] (source lines 235-248): the new drag state, and the files
    it hands to [addFiles], if any. *)
Definition handleDrop (files : list File) (s : DragState)
    : DragState * option (list File) :=
  ({| isDragOver := false; dragCounter := 0 |},
   if bool_decide (0 < length files)%nat then Some files else None).

Inductive DragEvent :=
  | DragEnter (hasItems : bool)
  | DragLeave
  | DragOver
  | Drop (files : list File).

Definition dragStep (s : DragState) (e : DragEvent) : DragState :=
  match e with
  | DragEnter hasItems => handleDragEnter hasItems s
  | DragLeave => handleDragLeave s
  | DragOver => handleDragOver s
  | Drop files => (handleDrop files s).1
  end.

(** [if (file.preview)]: an absent or empty URL is falsy. *)
Definition revocable (f : FileWithPreview) : list string :=
  match preview f with
  | Some url => if bool_decide (url = "") then [] else [url]
  | None => []
  end.

(** [removeFile] (source lines 82-90): the new list, and the URLs handed to
    [URL.revokeObjectURL]. *)
Definition removeFile (fileId : string) (prev : list FileWithPreview)
    : list FileWithPreview * list string :=
  let file := snd <$> list_find (λ f, id f = fileId) prev in
  let revoked :=
    match file with
    | Some f => revocable f
    | None => []
    end in
  (filter (λ f, id f ≠ fileId) prev, revoked).

Definition exFiles : list FileWithPreview :=
  [ {| file := {| name := "a.png"; type := "image/png"; size := 10 |};
       preview := Some "blob:1"; id := "a1" |};
    {| file := {| name := "b.pdf"; type := "application/pdf"; size := 20 |};
       preview := Some "blob:2"; id := "b2" |} ].
End FileAttachments.

(** ** A sample session

    User [u1] in chat [c1]; [u2] is a remote participant. *)

Definition exProps : Props.t :=
  Props.mk "c1" "u1" "Alice" (Some 1%nat) (Some 2%nat).

Definition exRandom : MathRandom.
Proof. refine {| rnd := 3 # 4 |}. split; [discriminate | reflexivity]. Defined.

Definition exHost : Host :=
  {| now := 1700000000000;
     random := exRandom;
     beacon := BeaconReturns true;
     sendResult := Return tt |}.

Definition exJoin : MindMapAction.t :=
  MindMapAction.mk (Some user_join) None None
    (Some "u2") (Some "Bob") (Some "#3B82F6") (Some 1700000000000) None.

(** The same user announcing again, later, under another name. *)
Definition exRejoin : MindMapAction.t :=
  MindMapAction.mk (Some user_join) None None
    (Some "u2") (Some "Robert") (Some "#3B82F6") (Some 1700000005000) None.

Definition exLeave : MindMapAction.t :=
  MindMapAction.mk (Some user_leave) None None
    (Some "u2") (Some "Bob") (Some "#3B82F6") (Some 1700000009000) None.

Definition exCursor : MindMapAction.t :=
  MindMapAction.mk (Some cursor_move) None (Some {| x := 120; y := 80 |})
    (Some "u2") (Some "Bob") (Some "#3B82F6") (Some 1700000001000) None.

(** The join announcement of [u1] itself, as the transport echoes it. *)
Definition exOwnJoin : MindMapAction.t :=
  MindMapAction.mk (Some user_join) None None
    (Some "u1") (Some "Alice") (Some "#3B82F6") (Some 1700000000000) None.

(** A join of [u2] whose time stamp is one millisecond past the range of
    [Date]. *)
Definition exLateJoin : MindMapAction.t :=
  MindMapAction.mk (Some user_join) None None
    (Some "u2") (Some "Bob") (Some "#3B82F6") (Some 8640000000000001) None.

(** An object payload with no field at all. *)
Definition emptyAction : MindMapAction.t :=
  MindMapAction.mk None None None None None None None None.

(** [u1] connects, learns of [u2], and is subscribed again after a
    reconnect: the colour of [u2] being taken, [u1] now holds the second
    palette colour. *)
Definition exConnected : HookState :=
  (run exProps (initialState exProps)
     [ (exHost, Mount); (exHost, ChannelStatus SUBSCRIBED); (exHost, Commit);
       (exHost, InboundJoin (PObject exJoin));
       (exHost, ChannelStatus SUBSCRIBED); (exHost, Commit) ]).1.

(** Every palette colour is taken, each by another peer. *)
Definition exFull : Users :=
  (λ c, CollaborativeUser.mk (Some ("peer" +:+ c)) None (Some c)
          "2023-11-14T22:13:20.000Z")
    <$> USER_COLORS.

(** ** Vocabulary of the properties *)

(** A call of [navigator.sendBeacon]. *)
Definition isBeaconCall (e : Effect) : bool :=
  match e with
  | SendBeacon _ _ _ => true
  | _ => false
  end.


(** An envelope that names the local user as its origin, with a palette
    colour, and with the fields every action must have. *)
Definition fromLocalUser (p : Props.t) (a : MindMapAction.t) : Prop :=
  MindMapAction.userId a = Some (Props.userId p)
  ∧ MindMapAction.userName a = Some (Props.userName p)
  ∧ (∃ c, MindMapAction.userColor a = Some c ∧ c ∈ USER_COLORS)
  ∧ is_Some (MindMapAction.type a)
  ∧ is_Some (MindMapAction.timestamp a).

(** What leaves the hook goes to the topic of the chat (or, through the
    beacon, to the fixed endpoint with the chat's id) and comes from the
    local user. *)
Definition wellAddressed (p : Props.t) (e : Effect) : Prop :=
  match e with
  | ChannelSend topic _ a =>
      topic = roomName (Props.chatId p) ∧ fromLocalUser p a
  | SendBeacon url chatId a =>
      url = BEACON_URL ∧ chatId = Props.chatId p ∧ fromLocalUser p a
  | _ => True
  end.

(** The stored colours are palette colours, the stored channel is the one
    of the chat, and a scheduled announcement has captured just these. *)
Definition coherent (p : Props.t) (st : HookState) : Prop :=
  userColor st ∈ USER_COLORS
  ∧ userColorRef st ∈ USER_COLORS
  ∧ (∀ ch, channel st = Some ch → ch = roomName (Props.chatId p))
  ∧ (∀ e, e ∈ pendingTimers st →
       jc_channel e.2 = roomName (Props.chatId p)
       ∧ jc_userId e.2 = Props.userId p
       ∧ jc_userName e.2 = Props.userName p
       ∧ jc_userColor e.2 ∈ USER_COLORS).

(** A call of one of the caller's two callbacks. *)
Definition isCallback (e : Effect) : bool :=
  match e with
  | CallOnAction _ _ | CallOnPresenceChange _ _ => true
  | _ => false
  end.

(** What [toISOString] returns: the ISO form of a time value in range. *)
Definition isoInstant (s : string) : Prop :=
  ∃ t, Z.abs t ≤ JsDate.maxTime ∧ s = JsDate.format t.

(** [u1] has mounted the hook and is waiting for the subscription. *)
Definition exMounted : HookState :=
  (initEffect exProps (initialState exProps)).1.

(** [u1] is connected and the join announcement is scheduled. *)
Definition exScheduled : HookState :=
  (run exProps (initialState exProps)
     [ (exHost, Mount); (exHost, ChannelStatus SUBSCRIBED); (exHost, Commit);
       (exHost, AnnounceEffect) ]).1.

(** * Properties *)

(** Closes a decidable goal about the sample session by evaluation. *)
Ltac by_compute := apply (bool_decide_unpack _); by vm_compute.

(** ** The registry updates *)

Section registry.
Implicit Types (us current : Users) (uid : option string).

Lemma filter_ids_absent uid us :
  uid ∉ userIds us → filter (λ u, CollaborativeUser.id u ≠ uid) us = us.
Proof.
  induction us as [|u us IH]; intros Hno; [done|].
  unfold userIds in Hno. rewrite fmap_cons, not_elem_of_cons in Hno.
  destruct Hno as [Hu Hus].
  rewrite filter_cons_True by congruence. by rewrite IH.
Qed.

Lemma filtered_ids_exclude uid us :
  uid ∉ userIds (filter (λ u, CollaborativeUser.id u ≠ uid) us).
Proof.
  unfold userIds. rewrite list_elem_of_fmap. intros (u & Heq & Hu).
  apply list_elem_of_filter in Hu as [Hne _]. by apply Hne.
Qed.

Lemma uniqueIds_filter (P : CollaborativeUser.t → Prop) `{!∀ u, Decision (P u)} us :
  uniqueIds us → uniqueIds (filter P us).
Proof.
  unfold uniqueIds, userIds. induction us as [|u us IH]; [done|].
  rewrite fmap_cons, NoDup_cons. intros [Hu Hus].
  rewrite filter_cons. case_decide; [|by apply IH].
  rewrite fmap_cons, NoDup_cons. split; [|by apply IH].
  rewrite list_elem_of_fmap. intros (v & Hv & Hin).
  apply list_elem_of_filter in Hin as [_ Hin]. apply Hu, list_elem_of_fmap. by exists v.
Qed.

Lemma filter_ids_present uid us :
  uniqueIds us → uid ∈ userIds us →
  ∃ l1 u l2, us = l1 ++ u :: l2 ∧ CollaborativeUser.id u = uid
    ∧ filter (λ v, CollaborativeUser.id v ≠ uid) us = l1 ++ l2.
Proof.
  intros Hnd (u & Heq & Hin)%list_elem_of_fmap. subst uid.
  apply list_elem_of_split in Hin as (l1 & l2 & Hsplit). subst us.
  exists l1, u, l2. split_and!; [done..|].
  unfold uniqueIds, userIds in Hnd. rewrite fmap_app, fmap_cons in Hnd.
  apply NoDup_app in Hnd as (_ & Hl1 & [Hl2 _]%NoDup_cons).
  rewrite filter_app, filter_cons_False by (intros Hne; by apply Hne).
  rewrite !filter_ids_absent; [done|done|].
  intros Hin. apply (Hl1 _ Hin). left.
Qed.

Lemma filter_none {A} (P : A → Prop) `{!∀ x, Decision (P x)} (l : list A) :
  (∀ x, x ∈ l → ¬ P x) → filter P l = [].
Proof.
  induction l as [|a l IH]; intros Hall; [done|].
  rewrite filter_cons_False by (apply Hall; left).
  apply IH. intros x Hx. apply Hall. by right.
Qed.

Lemma upsert_updated cb uid name color online_at current :
  (upsertOnJoin cb uid name color online_at current).1
  = filter (λ u, CollaborativeUser.id u ≠ uid) current
      ++ [CollaborativeUser.mk uid name color online_at].
Proof. reflexivity. Qed.

Lemma upsert_single cb uid name color online_at current :
  filter (λ u, CollaborativeUser.id u = uid)
    (upsertOnJoin cb uid name color online_at current).1
  = [CollaborativeUser.mk uid name color online_at].
Proof.
  rewrite upsert_updated, filter_app.
  rewrite (filter_none (λ u, CollaborativeUser.id u = uid)).
  - by rewrite filter_cons_True.
  - intros u Hu%list_elem_of_filter. tauto.
Qed.

Lemma upsert_length cb uid name color online_at current :
  length (upsertOnJoin cb uid name color online_at current).1
  = S (length (filter (λ u, CollaborativeUser.id u ≠ uid) current)).
Proof. rewrite upsert_updated, length_app. simpl. lia. Qed.

Lemma upsert_again cb cb' uid n1 c1 o1 n2 c2 o2 current :
  (upsertOnJoin cb' uid n2 c2 o2 (upsertOnJoin cb uid n1 c1 o1 current).1).1
  = (upsertOnJoin cb' uid n2 c2 o2 current).1.
Proof.
  rewrite !upsert_updated, filter_app.
  rewrite filter_cons_False by (simpl; tauto).
  rewrite filter_nil, app_nil_r.
  by rewrite list_filter_filter_l.
Qed.

Lemma upsert_uniqueIds cb uid name color online_at current :
  uniqueIds current →
  uniqueIds (upsertOnJoin cb uid name color online_at current).1.
Proof.
  intros Hnd. rewrite upsert_updated. unfold uniqueIds, userIds.
  rewrite fmap_app. apply NoDup_app. split_and!.
  - by apply uniqueIds_filter.
  - intros i Hi Hin. apply list_elem_of_singleton in Hin. simpl in Hin. subst i.
    by apply filtered_ids_exclude in Hi.
  - apply NoDup_singleton.
Qed.

Lemma remove_updated cb uid current :
  (removeOnLeave cb uid current).1
  = filter (λ u, CollaborativeUser.id u ≠ uid) current.
Proof. reflexivity. Qed.
End registry.

(** ** The receive handlers *)

Section handlers.
Implicit Types (p : Props.t) (st : HookState) (a : MindMapAction.t).

Lemma construct_valid t :
  Z.abs t ≤ JsDate.maxTime →
  JsDate.toISOString (JsDate.construct (Some t)) = Return (JsDate.format t).
Proof.
  intros Ht. unfold JsDate.construct, JsDate.TimeClip.
  by rewrite bool_decide_eq_true_2.
Qed.

Lemma construct_invalid t :
  JsDate.maxTime < Z.abs t →
  JsDate.toISOString (JsDate.construct (Some t)) = Throw RangeError.
Proof.
  intros Ht. unfold JsDate.construct, JsDate.TimeClip.
  rewrite bool_decide_eq_false_2; [done | lia].
Qed.

Lemma onUserJoin_remote p st a t :
  MindMapAction.userId a ≠ Some (Props.userId p) →
  MindMapAction.timestamp a = Some t →
  Z.abs t ≤ JsDate.maxTime →
  onUserJoin p st (PObject a)
  = Return
      (let r := upsertOnJoin (onPresenceChangeRef st) (MindMapAction.userId a)
                  (MindMapAction.userName a) (MindMapAction.userColor a)
                  (JsDate.format t) (collaborativeUsers st) in
       (setCollaborativeUsers r.1 st, r.2)).
Proof.
  intros Hremote Hts Ht. unfold onUserJoin. simpl.
  rewrite bool_decide_eq_false_2 by done.
  rewrite Hts, construct_valid by done. reflexivity.
Qed.

Lemma onUserLeave_remote p st a :
  MindMapAction.userId a ≠ Some (Props.userId p) →
  onUserLeave p st (PObject a)
  = Return
      (let r := removeOnLeave (onPresenceChangeRef st) (MindMapAction.userId a)
                  (collaborativeUsers st) in
       (setCollaborativeUsers r.1 st, r.2)).
Proof.
  intros Hremote. unfold onUserLeave. simpl.
  by rewrite bool_decide_eq_false_2.
Qed.

Lemma self_leave_dropped p st a :
  MindMapAction.userId a = Some (Props.userId p) →
  onUserLeave p st (PObject a) = Return (st, []).
Proof.
  intros Hown. unfold onUserLeave. simpl. by rewrite bool_decide_eq_true_2.
Qed.

Lemma setCollaborativeUsers_same st :
  setCollaborativeUsers (collaborativeUsers st) st = st.
Proof. by destruct st. Qed.

(** What a returning handler can have done to the participant list. *)
Lemma onUserJoin_users p st payload st' out :
  onUserJoin p st payload = Return (st', out) →
  collaborativeUsers st' = collaborativeUsers st
  ∨ ∃ uid name color online_at,
      uid ≠ Some (Props.userId p)
      ∧ collaborativeUsers st'
        = (upsertOnJoin (onPresenceChangeRef st) uid name color online_at
             (collaborativeUsers st)).1.
Proof.
  unfold onUserJoin.
  destruct payload as [| |v|a]; simpl; try discriminate.
  case_bool_decide as Hself.
  - intros [= <- _]. by left.
  - destruct (JsDate.toISOString _) as [e|iso] eqn:Hiso; simpl; [discriminate|].
    intros [= <- _]. right. by eexists _, _, _, _.
Qed.

Lemma onUserLeave_users p st payload st' out :
  onUserLeave p st payload = Return (st', out) →
  collaborativeUsers st' = collaborativeUsers st
  ∨ ∃ uid,
      uid ≠ Some (Props.userId p)
      ∧ collaborativeUsers st'
        = (removeOnLeave (onPresenceChangeRef st) uid (collaborativeUsers st)).1.
Proof.
  unfold onUserLeave.
  destruct payload as [| |v|a]; simpl; try discriminate.
  - intros [= <- _]. right. by exists None.
  - case_bool_decide as Hself.
    + intros [= <- _]. by left.
    + intros [= <- _]. right. by eexists.
Qed.

Lemma onMindMapAction_state p st payload st' out :
  onMindMapAction p st payload = Return (st', out) → st' = st.
Proof.
  unfold onMindMapAction.
  destruct payload as [| |v|a]; simpl; try discriminate.
  - by intros [= <- _].
  - case_bool_decide; by intros [= <- _].
Qed.
End handlers.

(** ** Invariants of the transition system *)

Section invariants.
Implicit Types (p : Props.t) (env : Host) (st : HookState) (ev : Event).

Lemma Return_fst {A B} (x : A * B) (a : A) (b : B) :
  mret x = Return (a, b) → x.1 = a.
Proof. by intros [= ->]. Qed.

Lemma initEffect_users p st :
  collaborativeUsers (initEffect p st).1 = collaborativeUsers st.
Proof. unfold initEffect. by destruct (_ || _). Qed.

Lemma announceEffect_users p st :
  collaborativeUsers (announceEffect p st).1 = collaborativeUsers st.
Proof.
  unfold announceEffect, clearAnnounceTimeout.
  destruct (channel st); [|done].
  destruct (_ && _); [|done]. by destruct (announceTimeoutRef st).
Qed.

Lemma announceCleanup_users st :
  collaborativeUsers (announceCleanup st).1 = collaborativeUsers st.
Proof.
  unfold announceCleanup, clearAnnounceTimeout.
  by destruct (announceTimeoutRef st).
Qed.

Lemma timerFires_users env h st :
  collaborativeUsers (timerFires env h st).1 = collaborativeUsers st.
Proof.
  unfold timerFires.
  destruct (list_find _ _) as [[i [h' c]]|]; [|done].
  by destruct (sendResult env).
Qed.

Lemma onStatus_users p env st status :
  collaborativeUsers (onStatus p env st status).1 = collaborativeUsers st.
Proof. by destruct status. Qed.

Lemma cleanup_users p env st :
  collaborativeUsers (cleanup p env st).1 = [].
Proof.
  unfold cleanup.
  destruct (announceCleanup st) as [st1 cleared].
  by destruct (announceLeave p env st1).
Qed.

(** Each step either keeps the participant list, empties it, or applies
    one of the two registry updates for a remote user. *)
Lemma step_users p env st ev st' out :
  step p env st ev = Return (st', out) →
  collaborativeUsers st' = collaborativeUsers st
  ∨ collaborativeUsers st' = []
  ∨ (∃ uid name color online_at,
        uid ≠ Some (Props.userId p)
        ∧ collaborativeUsers st'
          = (upsertOnJoin (onPresenceChangeRef st) uid name color online_at
               (collaborativeUsers st)).1)
  ∨ (∃ uid,
        uid ≠ Some (Props.userId p)
        ∧ collaborativeUsers st'
          = (removeOnLeave (onPresenceChangeRef st) uid (collaborativeUsers st)).1).
Proof.
  destruct ev; simpl; intros Hstep;
    try (apply Return_fst in Hstep; subst st').
  - left. apply initEffect_users.
  - by left.
  - left. apply announceEffect_users.
  - left. apply announceCleanup_users.
  - left. apply timerFires_users.
  - left. apply onStatus_users.
  - left. by rewrite (onMindMapAction_state _ _ _ _ _ Hstep).
  - apply onUserJoin_users in Hstep as [?|?]; auto.
  - apply onUserLeave_users in Hstep as [?|?]; auto.
  - right; left. apply cleanup_users.
Qed.

Lemma step_uniqueIds p env st ev st' out :
  step p env st ev = Return (st', out) →
  uniqueIds (collaborativeUsers st) → uniqueIds (collaborativeUsers st').
Proof.
  intros Hstep Hnd.
  destruct (step_users _ _ _ _ _ _ Hstep)
    as [-> | [-> | [(uid & n & c & o & _ & ->) | (uid & _ & ->)]]].
  - done.
  - apply NoDup_nil_2.
  - by apply upsert_uniqueIds.
  - rewrite remove_updated. by apply uniqueIds_filter.
Qed.

Lemma step_selfExcluded p env st ev st' out :
  step p env st ev = Return (st', out) →
  selfExcluded p st → selfExcluded p st'.
Proof.
  unfold selfExcluded. intros Hstep Hex.
  destruct (step_users _ _ _ _ _ _ Hstep)
    as [-> | [-> | [(uid & n & c & o & Hne & ->) | (uid & Hne & ->)]]].
  - done.
  - apply not_elem_of_nil.
  - rewrite upsert_updated. unfold userIds. rewrite fmap_app, elem_of_app.
    intros [Hin | Hin%list_elem_of_singleton]; [|by simpl in Hin].
    apply Hex. apply list_elem_of_fmap in Hin as (u & Hu & Hin).
    apply list_elem_of_filter in Hin as [_ Hin].
    apply list_elem_of_fmap. by exists u.
  - rewrite remove_updated. unfold userIds. intros Hin.
    apply Hex. apply list_elem_of_fmap in Hin as (u & Hu & Hin).
    apply list_elem_of_filter in Hin as [_ Hin].
    apply list_elem_of_fmap. by exists u.
Qed.
End invariants.

Section timers.
Implicit Types (p : Props.t) (env : Host) (st : HookState) (ev : Event).

Lemma clearTimeout_owned st h :
  timersOwned st → announceTimeoutRef st = Some h →
  clearTimeout h (pendingTimers st) = [].
Proof.
  intros Hown Href. apply filter_none. intros e He Hne.
  apply Hown in He. congruence.
Qed.

Lemma pending_owned_None st :
  timersOwned st → announceTimeoutRef st = None → pendingTimers st = [].
Proof.
  intros Hown Href. destruct (pendingTimers st) as [|e l] eqn:Hp; [done|].
  assert (He : e ∈ pendingTimers st) by (rewrite Hp; left).
  apply Hown in He. congruence.
Qed.

Lemma clearAnnounceTimeout_owned st :
  timersOwned st → (clearAnnounceTimeout st).1 = [].
Proof.
  intros Hown. unfold clearAnnounceTimeout.
  destruct (announceTimeoutRef st) as [h|] eqn:Href; simpl.
  - by apply clearTimeout_owned.
  - by apply pending_owned_None.
Qed.

(** After the cleanup of the announcement effect nothing is pending. *)
Lemma announceCleanup_timers st :
  timersOwned st →
  announceTimeoutRef (announceCleanup st).1 = None
  ∧ pendingTimers (announceCleanup st).1 = [].
Proof.
  intros Hown. pose proof (clearAnnounceTimeout_owned st Hown) as Hclr.
  unfold announceCleanup.
  destruct (clearAnnounceTimeout st) as [pending cleared] eqn:Hc.
  simpl in Hclr. subst pending.
  destruct (announceTimeoutRef st) eqn:Href; simpl; [done|].
  split; [done|]. by apply pending_owned_None.
Qed.

Lemma timersOwned_empty st : pendingTimers st = [] → timersOwned st.
Proof. intros Hp e He. rewrite Hp in He. by apply elem_of_nil in He. Qed.

Lemma timersOwned_same st st' :
  pendingTimers st' = pendingTimers st →
  announceTimeoutRef st' = announceTimeoutRef st →
  timersOwned st → timersOwned st'.
Proof. intros Hp Hr Hown e He. rewrite Hp in He. rewrite Hr. by apply Hown. Qed.

Lemma announceEffect_owned p st :
  timersOwned st → timersOwned (announceEffect p st).1.
Proof.
  intros Hown. pose proof (clearAnnounceTimeout_owned st Hown) as Hclr.
  unfold announceEffect.
  destruct (channel st); [|done].
  destruct (_ && _); [|done].
  destruct (clearAnnounceTimeout st) as [pending cleared].
  simpl in Hclr. subst pending. simpl.
  intros e He. simpl in *. apply list_elem_of_singleton in He. by subst e.
Qed.

Lemma timerFires_owned env h st :
  timersOwned st → timersOwned (timerFires env h st).1.
Proof.
  intros Hown. unfold timerFires.
  destruct (list_find _ _) as [[i [h' c]]|]; [|done].
  assert (Hsub : ∀ e, e ∈ clearTimeout h (pendingTimers st) → announceTimeoutRef st = Some e.1).
  { intros e [_ He]%list_elem_of_filter. by apply Hown. }
  by destruct (sendResult env).
Qed.

Lemma cleanup_timers p env st :
  timersOwned st →
  announceTimeoutRef (cleanup p env st).1 = None
  ∧ pendingTimers (cleanup p env st).1 = [].
Proof.
  intros Hown. pose proof (announceCleanup_timers st Hown) as Hc.
  unfold cleanup.
  destruct (announceCleanup st) as [st1 cleared].
  by destruct (announceLeave p env st1).
Qed.

Lemma handler_timers_join p st payload st' out :
  onUserJoin p st payload = Return (st', out) →
  pendingTimers st' = pendingTimers st
  ∧ announceTimeoutRef st' = announceTimeoutRef st.
Proof.
  unfold onUserJoin.
  destruct payload as [| |v|a]; simpl; try discriminate.
  case_bool_decide.
  - by intros [= <- _].
  - destruct (JsDate.toISOString _); simpl; [discriminate|]. by intros [= <- _].
Qed.

Lemma handler_timers_leave p st payload st' out :
  onUserLeave p st payload = Return (st', out) →
  pendingTimers st' = pendingTimers st
  ∧ announceTimeoutRef st' = announceTimeoutRef st.
Proof.
  unfold onUserLeave.
  destruct payload as [| |v|a]; simpl; try discriminate.
  - by intros [= <- _].
  - case_bool_decide; by intros [= <- _].
Qed.

Lemma step_timersOwned p env st ev st' out :
  step p env st ev = Return (st', out) →
  timersOwned st → timersOwned st'.
Proof.
  destruct ev; simpl; intros Hstep Hown;
    try (apply Return_fst in Hstep; subst st').
  - unfold initEffect. by destruct (_ || _).
  - done.
  - by apply announceEffect_owned.
  - apply timersOwned_empty. by apply announceCleanup_timers.
  - by apply timerFires_owned.
  - by destruct status.
  - by rewrite (onMindMapAction_state _ _ _ _ _ Hstep).
  - apply handler_timers_join in Hstep as [Hp Hr]. by apply (timersOwned_same st).
  - apply handler_timers_leave in Hstep as [Hp Hr]. by apply (timersOwned_same st).
  - apply timersOwned_empty. by apply cleanup_timers.
Qed.

(** The three invariants hold in every reachable state. *)
Lemma reachable_invariants p st :
  reachable p st →
  uniqueIds (collaborativeUsers st) ∧ selfExcluded p st ∧ timersOwned st.
Proof.
  induction 1 as [|env st ev st' out _ (Hu & Hs & Ht) Hstep].
  - split_and!.
    + apply NoDup_nil_2.
    + apply not_elem_of_nil.
    + by apply timersOwned_empty.
  - split_and!.
    + by eapply step_uniqueIds.
    + by eapply step_selfExcluded.
    + by eapply step_timersOwned.
Qed.

Lemma run_reachable p st evs :
  reachable p st → reachable p (run p st evs).1.
Proof.
  revert st. induction evs as [|[env ev] evs IH]; intros st Hst; [done|].
  simpl. destruct (step p env st ev) as [e|[st1 out]] eqn:Hstep.
  - by apply IH.
  - specialize (IH st1 (reachable_step _ _ _ _ _ _ Hst Hstep)).
    by destruct (run p st1 evs).
Qed.
End timers.

(** ** Colour assignment *)

Section colours.
Implicit Types (r : MathRandom) (us : Users) (c : string).

Lemma palette_NoDup : NoDup USER_COLORS.
Proof. by_compute. Qed.

Lemma palette_nonempty_strings c : c ∈ USER_COLORS → c ≠ "".
Proof.
  intros Hc ->. revert Hc. by_compute.
Qed.

Lemma availableColors_spec us c :
  c ∈ availableColors us ↔ c ∈ USER_COLORS ∧ ¬ inUse us c.
Proof. unfold availableColors. rewrite list_elem_of_filter. tauto. Qed.

Lemma floor_unique (q : Q) (k : Z) :
  Qfloor q = k ↔ (inject_Z k <= q)%Q ∧ (q < inject_Z (k + 1))%Q.
Proof.
  split.
  - intros <-. split; [apply Qfloor_le | apply Qlt_floor].
  - intros [Hle Hlt].
    apply Qfloor_resp_le in Hle. rewrite Qfloor_Z in Hle.
    pose proof (Qfloor_le q) as Hfl.
    assert (Hlt' : (inject_Z (Qfloor q) < inject_Z (k + 1))%Q)
      by (eapply Qle_lt_trans; eassumption).
    rewrite <- Zlt_Qlt in Hlt'. lia.
Qed.

Lemma randomIndex_floor r :
  Z.of_nat (randomIndex r) = Qfloor (rnd r * 8).
Proof.
  unfold randomIndex. simpl.
  rewrite Z2Nat.id; [done|].
  destruct (rnd_range r) as [H0 _].
  assert (Hle : (inject_Z 0 <= rnd r * 8)%Q).
  { change (inject_Z 0) with (0 * 8)%Q. by apply Qmult_le_compat_r. }
  apply Qfloor_resp_le in Hle. by rewrite Qfloor_Z in Hle.
Qed.

(** The index is [k] exactly on the interval [[k/8, (k+1)/8)]. *)
Lemma randomIndex_interval r (k : nat) :
  randomIndex r = k
  ↔ (inject_Z (Z.of_nat k) / 8 <= rnd r)%Q
    ∧ (rnd r < inject_Z (Z.of_nat k + 1) / 8)%Q.
Proof.
  assert (H8 : (0 < 8)%Q) by reflexivity.
  rewrite <- (inj_iff Z.of_nat), randomIndex_floor, floor_unique.
  split; intros [Hlo Hhi]; split.
  - by apply Qle_shift_div_r.
  - by apply Qlt_shift_div_l.
  - apply (Qmult_le_compat_r _ _ 8) in Hlo; [|done].
    rewrite Qmult_comm, Qmult_div_r in Hlo; done.
  - apply (Qmult_lt_compat_r _ _ 8) in Hhi; [|done].
    rewrite (Qmult_comm (_ / 8)), Qmult_div_r in Hhi; done.
Qed.

Lemma randomIndex_lt r : (randomIndex r < length USER_COLORS)%nat.
Proof.
  destruct (rnd_range r) as [_ H1].
  pose proof (Qfloor_le (rnd r * 8)) as Hfl.
  assert (Hlt : (rnd r * 8 < inject_Z 8)%Q).
  { change (inject_Z 8) with (1 * 8)%Q. by apply Qmult_lt_compat_r. }
  assert (Hlt' : (inject_Z (Qfloor (rnd r * 8)) < inject_Z 8)%Q)
    by (eapply Qle_lt_trans; eassumption).
  rewrite <- Zlt_Qlt, <- randomIndex_floor in Hlt'. simpl. lia.
Qed.

Lemma assignColor_exhausted r us :
  Forall (inUse us) USER_COLORS →
  assignColor r us = USER_COLORS !!! randomIndex r.
Proof.
  intros Hall. unfold assignColor.
  assert (Hnone : availableColors us = []).
  { apply filter_none. intros c Hc Hfree. apply Hfree.
    rewrite Forall_forall in Hall. by apply Hall. }
  by rewrite Hnone.
Qed.

Lemma assignColor_free r us c :
  c ∈ USER_COLORS → ¬ inUse us c →
  ∃ before after,
    USER_COLORS = before ++ assignColor r us :: after
    ∧ Forall (inUse us) before
    ∧ ¬ inUse us (assignColor r us).
Proof.
  intros Hc Hfree.
  assert (Hin : c ∈ availableColors us) by by apply availableColors_spec.
  destruct (availableColors us) as [|c0 rest] eqn:Hav.
  { by apply elem_of_nil in Hin. }
  assert (Hc0 : c0 ∈ availableColors us) by (rewrite Hav; left).
  apply availableColors_spec in Hc0 as [Hpal Hfree0].
  assert (Hhead : head (availableColors us) = Some c0) by by rewrite Hav.
  unfold assignColor. rewrite Hhead. simpl.
  rewrite bool_decide_eq_false_2 by by apply palette_nonempty_strings.
  unfold availableColors in Hhead.
  apply head_filter_Some in Hhead as (l1 & l2 & Heq & Hl1).
  exists l1, l2. split_and!; [done| |done].
  eapply Forall_impl; [exact Hl1|]. intros z Hz. by apply dec_stable.
Qed.

Lemma palette_member r us : assignColor r us ∈ USER_COLORS.
Proof.
  destruct (decide (Forall (inUse us) USER_COLORS)) as [Hall|Hsome].
  - rewrite assignColor_exhausted by done.
    apply list_elem_of_lookup_total_2, randomIndex_lt.
  - apply not_Forall_Exists in Hsome; [|apply _].
    apply Exists_exists in Hsome as (c & Hc & Hfree).
    destruct (assignColor_free r us c Hc Hfree) as (l1 & l2 & Heq & _).
    assert (Hmid : assignColor r us ∈ l1 ++ assignColor r us :: l2)
      by (apply elem_of_app; right; left).
    by rewrite <- Heq in Hmid.

Qed.

(** Fewer distinct colours in use than the palette holds: one is free. *)
Lemma palette_pigeonhole us :
  (length (remove_dups (CollaborativeUser.color <$> us)) < length USER_COLORS)%nat →
  ∃ c, c ∈ USER_COLORS ∧ ¬ inUse us c.
Proof.
  intros Hlt.
  destruct (decide (Forall (inUse us) USER_COLORS)) as [Hall|Hsome].
  - exfalso.
    assert (Hsub : Some <$> USER_COLORS ⊆+ remove_dups (CollaborativeUser.color <$> us)).
    { apply NoDup_submseteq.
      - apply NoDup_fmap_2; [apply _ | apply palette_NoDup].
      - intros oc (c & -> & Hc)%list_elem_of_fmap.
        apply elem_of_remove_dups.
        rewrite Forall_forall in Hall. specialize (Hall c Hc).
        apply Exists_exists in Hall as (u & Hu & Hcol).
        apply list_elem_of_fmap. by exists u. }
    apply submseteq_length in Hsub. rewrite length_fmap in Hsub. lia.
  - apply not_Forall_Exists in Hsome; [|apply _].
    apply Exists_exists in Hsome as (c & Hc & Hfree).
    by exists c.
Qed.
End colours.

(** ** Teardown *)

Section teardown.
Implicit Types (p : Props.t) (env : Host) (st : HookState).

Lemma announceCleanup_refs st :
  isConnectedRef (announceCleanup st).1 = isConnectedRef st
  ∧ userColorRef (announceCleanup st).1 = userColorRef st
  ∧ userColor (announceCleanup st).1 = userColor st.
Proof.
  unfold announceCleanup, clearAnnounceTimeout.
  by destruct (announceTimeoutRef st).
Qed.

Lemma announceCleanup_trace st :
  (announceCleanup st).2
  = match announceTimeoutRef st with
    | Some h => [ClearTimeout h]
    | None => []
    end.
Proof.
  unfold announceCleanup, clearAnnounceTimeout.
  by destruct (announceTimeoutRef st).
Qed.

Lemma leaveAction_announceCleanup p env st :
  leaveAction p env (announceCleanup st).1 = leaveAction p env st.
Proof.
  unfold leaveAction. by destruct (announceCleanup_refs st) as (_ & -> & _).
Qed.

Lemma cleanup_trace p env st :
  (cleanup p env st).2
  = (announceCleanup st).2
    ++ (announceLeave p env (announceCleanup st).1).1
    ++ [RemoveChannel (roomName (Props.chatId p))]
    ++ (announceLeave p env (announceCleanup st).1).2.
Proof.
  unfold cleanup. destruct (announceCleanup st) as [st1 cleared]. simpl.
  by destruct (announceLeave p env st1).
Qed.

Lemma cleanup_state p env st :
  (cleanup p env st).1
  = setShouldAnnounceJoin false
      (setCollaborativeUsers []
         (setIsConnected false (setChannel None (announceCleanup st).1))).
Proof.
  unfold cleanup. destruct (announceCleanup st) as [st1 cleared]. simpl.
  by destruct (announceLeave p env st1).
Qed.

(** Not connected: the cleanup announces nothing. *)
Lemma cleanup_not_connected p env st :
  isConnectedRef st = false →
  (cleanup p env st).2
  = (announceCleanup st).2 ++ [RemoveChannel (roomName (Props.chatId p))].
Proof.
  intros Hoff. rewrite cleanup_trace. unfold announceLeave.
  destruct (announceCleanup_refs st) as (-> & _ & _).
  by rewrite Hoff.
Qed.

Lemma timerFires_idle env h st :
  pendingTimers st = [] → timerFires env h st = (st, []).
Proof. intros Hp. unfold timerFires. by rewrite Hp. Qed.
End teardown.

Lemma exConnected_reachable : reachable exProps exConnected.
Proof. apply run_reachable, reachable_initial. Qed.


(** ** Payloads that are not complete actions *)

Section unvalidated.
Implicit Types (p : Props.t) (st : HookState) (payload : Payload).

Lemma onMindMapAction_other p st payload uid :
  property MindMapAction.userId payload = Return uid →
  uid ≠ Some (Props.userId p) →
  onMindMapAction p st payload
  = Return (st, callOptional (onActionRef st) CallOnAction payload).
Proof.
  intros Huid Hremote. unfold onMindMapAction. rewrite Huid. simpl.
  by rewrite bool_decide_eq_false_2.
Qed.

Lemma onUserLeave_other p st payload uid :
  property MindMapAction.userId payload = Return uid →
  uid ≠ Some (Props.userId p) →
  onUserLeave p st payload
  = Return
      (let r := removeOnLeave (onPresenceChangeRef st) uid (collaborativeUsers st) in
       (setCollaborativeUsers r.1 st, r.2)).
Proof.
  intros Huid Hremote. unfold onUserLeave. rewrite Huid. simpl.
  by rewrite bool_decide_eq_false_2.
Qed.

(** After one property read went through, the others do too. *)
Lemma property_total {A B} (f : MindMapAction.t → option A)
    (g : MindMapAction.t → option B) payload v :
  property f payload = Return v → ∃ w, property g payload = Return w.
Proof. destruct payload; try discriminate; by eexists. Qed.

Lemma onUserJoin_invalid_time p st payload uid ts :
  property MindMapAction.userId payload = Return uid →
  uid ≠ Some (Props.userId p) →
  property MindMapAction.timestamp payload = Return ts →
  JsDate.construct ts = None →
  onUserJoin p st payload = Throw RangeError.
Proof.
  intros Huid Hremote Hts Hnan. unfold onUserJoin. rewrite Huid. simpl.
  rewrite bool_decide_eq_false_2 by done.
  destruct (property_total _ MindMapAction.userName _ _ Huid) as [name ->].
  destruct (property_total _ MindMapAction.userColor _ _ Huid) as [color ->].
  rewrite Hts. simpl. by rewrite Hnan.
Qed.

Lemma onUserJoin_other p st payload uid name color t :
  property MindMapAction.userId payload = Return uid →
  uid ≠ Some (Props.userId p) →
  property MindMapAction.userName payload = Return name →
  property MindMapAction.userColor payload = Return color →
  property MindMapAction.timestamp payload = Return (Some t) →
  Z.abs t ≤ JsDate.maxTime →
  onUserJoin p st payload
  = Return
      (let r := upsertOnJoin (onPresenceChangeRef st) uid name color
                  (JsDate.format t) (collaborativeUsers st) in
       (setCollaborativeUsers r.1 st, r.2)).
Proof.
  intros Huid Hremote Hname Hcolor Hts Ht. unfold onUserJoin.
  rewrite Huid. simpl. rewrite bool_decide_eq_false_2 by done.
  rewrite Hname, Hcolor, Hts. cbn [mbind Js_bind].
  by rewrite construct_valid.
Qed.
End unvalidated.

(** * The claims *)

(** C1, as the code has it.  For every participant list, [upsertOnJoin]
    yields a list with exactly one entry of the given id, and that entry
    carries the name, colour and [online_at] just given; applying it again
    for the same id, with any other name, colour or time, leaves the size as
    after the first application, the one entry now being the later one; and
    it keeps "at most one entry per id".  The [user_join] handler applies
    exactly this update for every event of a remote user whose timestamp is
    a valid time value, [online_at] being the ISO form of that timestamp, so
    that afterwards the list holds exactly one entry of that user, with the
    fields of the event; handling two such events of one user in a row leaves the list as long as
    after the first, with the one entry of that user built from the second.
    Every step of the hook preserves "at most one entry per id".  An event
    that carries the local [userId] is dropped: the handler returns with the
    state as it was.  An event of a remote user whose timestamp is missing
    or outside the range of [Date] makes the handler raise a [RangeError]
    before any update. *)
Theorem join_upsert_one_entry_per_user :
  (∀ cb uid name color online_at current,
      let updated := (upsertOnJoin cb uid name color online_at current).1 in
      filter (λ u, CollaborativeUser.id u = uid) updated
      = [CollaborativeUser.mk uid name color online_at]
      ∧ (∀ cb' name' color' online_at',
            let again := (upsertOnJoin cb' uid name' color' online_at' updated).1 in
            length again = length updated
            ∧ filter (λ u, CollaborativeUser.id u = uid) again
              = [CollaborativeUser.mk uid name' color' online_at'])
      ∧ (uniqueIds current → uniqueIds updated))
  ∧ (∀ p st a t,
        MindMapAction.userId a ≠ Some (Props.userId p) →
        MindMapAction.timestamp a = Some t →
        Z.abs t ≤ JsDate.maxTime →
        onUserJoin p st (PObject a)
        = Return
            (let r := upsertOnJoin (onPresenceChangeRef st)
                        (MindMapAction.userId a) (MindMapAction.userName a)
                        (MindMapAction.userColor a) (JsDate.format t)
                        (collaborativeUsers st) in
             (setCollaborativeUsers r.1 st, r.2)))
  ∧ (∀ p st a t,
        MindMapAction.userId a ≠ Some (Props.userId p) →
        MindMapAction.timestamp a = Some t →
        Z.abs t ≤ JsDate.maxTime →
        ∃ st' out,
          onUserJoin p st (PObject a) = Return (st', out)
          ∧ filter (λ u, CollaborativeUser.id u = MindMapAction.userId a)
              (collaborativeUsers st')
            = [CollaborativeUser.mk (MindMapAction.userId a)
                 (MindMapAction.userName a) (MindMapAction.userColor a)
                 (JsDate.format t)]
          ∧ (uniqueIds (collaborativeUsers st) →
             uniqueIds (collaborativeUsers st')))
  ∧ (∀ p st a a' t t',
        MindMapAction.userId a ≠ Some (Props.userId p) →
        MindMapAction.timestamp a = Some t →
        Z.abs t ≤ JsDate.maxTime →
        MindMapAction.userId a' = MindMapAction.userId a →
        MindMapAction.timestamp a' = Some t' →
        Z.abs t' ≤ JsDate.maxTime →
        ∃ st1 out1 st2 out2,
          onUserJoin p st (PObject a) = Return (st1, out1)
          ∧ onUserJoin p st1 (PObject a') = Return (st2, out2)
          ∧ length (collaborativeUsers st2) = length (collaborativeUsers st1)
          ∧ filter (λ u, CollaborativeUser.id u = MindMapAction.userId a)
              (collaborativeUsers st2)
            = [CollaborativeUser.mk (MindMapAction.userId a)
                 (MindMapAction.userName a') (MindMapAction.userColor a')
                 (JsDate.format t')])
  ∧ (∀ p env st ev st' out,
        step p env st ev = Return (st', out) →
        uniqueIds (collaborativeUsers st) →
        uniqueIds (collaborativeUsers st'))
  ∧ (∀ p st a,
        MindMapAction.userId a = Some (Props.userId p) →
        onUserJoin p st (PObject a) = Return (st, []))
  ∧ (∀ p st a,
        MindMapAction.userId a ≠ Some (Props.userId p) →
        JsDate.construct (MindMapAction.timestamp a) = None →
        onUserJoin p st (PObject a) = Throw RangeError).
Proof.
  split_and!.
  - intros cb uid name color online_at current updated. split_and!.
    + apply upsert_single.
    + intros cb' name' color' online_at' again. subst again updated. split.
      * by rewrite upsert_again, !upsert_length.
      * apply upsert_single.
    + apply upsert_uniqueIds.
  - apply onUserJoin_remote.
  - intros p st a t Hremote Hts Ht.
    eexists _, _. split_and!.
    + by apply onUserJoin_remote.
    + cbn [collaborativeUsers setCollaborativeUsers]. apply upsert_single.
    + cbn [collaborativeUsers setCollaborativeUsers]. apply upsert_uniqueIds.
  - intros p st a a' t t' Hremote Hts Ht Hsame Hts' Ht'.
    eexists _, _, _, _. split_and!.
    + by apply onUserJoin_remote.
    + apply onUserJoin_remote; [by rewrite Hsame | done..].
    + cbn [collaborativeUsers setCollaborativeUsers]. rewrite Hsame.
      by rewrite upsert_again, !upsert_length.
    + cbn [collaborativeUsers setCollaborativeUsers]. rewrite Hsame.
      apply upsert_single.
  - apply step_uniqueIds.
  - intros p st a Hown. unfold onUserJoin. simpl.
    by rewrite bool_decide_eq_true_2.
  - intros p st a Hremote Hnan.
    by apply (onUserJoin_invalid_time p st (PObject a)
                (MindMapAction.userId a) (MindMapAction.timestamp a)).
Qed.

Lemma join_upsert_one_entry_per_user_witness :
  ∃ st1 st2 out1 out2,
    onUserJoin exProps (initialState exProps) (PObject exJoin) = Return (st1, out1)
    ∧ onUserJoin exProps st1 (PObject exRejoin) = Return (st2, out2)
    ∧ length (collaborativeUsers st1) = 1%nat
    ∧ collaborativeUsers st2
      = [CollaborativeUser.mk (Some "u2") (Some "Robert") (Some "#3B82F6")
           "2023-11-14T22:13:25.000Z"]
    ∧ uniqueIds (collaborativeUsers st2).
Proof.
  destruct join_upsert_one_entry_per_user as (_ & Hjoin & _ & _ & _ & _ & _).
  eexists _, _, _, _. split_and!.
  - apply (Hjoin exProps (initialState exProps) exJoin 1700000000000);
      [discriminate | reflexivity | by vm_compute].
  - apply (Hjoin exProps _ exRejoin 1700000005000);
      [discriminate | reflexivity | by vm_compute].
  - reflexivity.
  - reflexivity.
  - by_compute.
Defined.

(** C1 as stated fails: the join of the local user, echoed back, leaves the
    list without any entry of that user, and a join whose time stamp lies
    one millisecond past the range of [Date] raises instead of adding an
    entry. *)
Lemma join_event_without_entry :
  onUserJoin exProps (initialState exProps) (PObject exOwnJoin)
  = Return (initialState exProps, [])
  ∧ filter (λ u, CollaborativeUser.id u = MindMapAction.userId exOwnJoin)
      (collaborativeUsers (initialState exProps))
    = []
  ∧ onUserJoin exProps (initialState exProps) (PObject exLateJoin)
    = Throw RangeError.
Proof. by split_and!. Qed.

(** C2.  Self-echo suppression.  A payload whose [userId] is the local
    [userId] is dropped by each of the three receive handlers: the handler
    returns with the state (the participant list included) as it was and
    with no effect at all, so neither [onAction] nor [onPresenceChange] is
    called. *)
Theorem self_echo_suppressed (p : Props.t) (st : HookState) (payload : Payload) :
  property MindMapAction.userId payload = Return (Some (Props.userId p)) →
  onMindMapAction p st payload = Return (st, [])
  ∧ onUserJoin p st payload = Return (st, [])
  ∧ onUserLeave p st payload = Return (st, []).
Proof.
  intros Hself. unfold onMindMapAction, onUserJoin, onUserLeave.
  rewrite Hself. simpl. by rewrite bool_decide_eq_true_2.
Qed.

Lemma self_echo_suppressed_witness :
  let own := PObject (MindMapAction.mk (Some user_join) None None
                        (Some "u1") (Some "Alice") (Some "#EF4444")
                        (Some 1700000000000) None) in
  onMindMapAction exProps exConnected own = Return (exConnected, [])
  ∧ onUserJoin exProps exConnected own = Return (exConnected, [])
  ∧ onUserLeave exProps exConnected own = Return (exConnected, []).
Proof.
  intros own. apply (self_echo_suppressed exProps exConnected own). reflexivity.
Defined.

(** C3.  Teardown ordering.  In a reachable state whose connected flag (the
    ref the cleanup reads) is set, the effects of the cleanup are, in this
    order: the cancellation of the join-announcement timer the ref holds, if
    any; the leave announcement; the removal of the channel; and afterwards
    at most the warning of a rejected fallback send.  The envelope announced
    is a [user_leave] action of the local user: type [user_leave], the local
    [userId] and [userName], the colour ref, the current time, and no node,
    position or data.  The announcement is one call of [sendBeacon] with the
    endpoint ["/api/collaboration/beacon"], the [chatId] and that envelope
    when the beacon is there, followed by the broadcast of the same envelope
    on the chat's channel under the event ["user_leave"] only if that call
    raised; without a beacon it is that broadcast alone.  After the cleanup
    no join-announcement timer is pending, so none can fire. *)
Theorem teardown_ordering (p : Props.t) (env : Host) (st : HookState) :
  reachable p st →
  isConnectedRef st = true →
  let room := "chat-collaboration:" +:+ Props.chatId p in
  let leave :=
    {| MindMapAction.type := Some user_leave;
       MindMapAction.nodeId := None;
       MindMapAction.position := None;
       MindMapAction.userId := Some (Props.userId p);
       MindMapAction.userName := Some (Props.userName p);
       MindMapAction.userColor := Some (userColorRef st);
       MindMapAction.timestamp := Some (now env);
       MindMapAction.data := None |} in
  let beaconCall :=
    SendBeacon "/api/collaboration/beacon" (Props.chatId p) leave in
  let fallback := ChannelSend room "user_leave" leave in
  let st' := (cleanup p env st).1 in
  let trace := (cleanup p env st).2 in
  ∃ later,
    trace
    = match announceTimeoutRef st with
      | Some h => [ClearTimeout h]
      | None => []
      end
      ++ match beacon env with
         | BeaconReturns _ => [beaconCall]
         | BeaconThrows _ =>
             [beaconCall; ConsoleWarn "Failed to send user leave beacon:"; fallback]
         | BeaconMissing => [fallback]
         end
      ++ [RemoveChannel room] ++ later
    ∧ (later = [] ∨ later = [ConsoleWarn "Failed to announce user leave:"])
    ∧ length (filter (λ e, isBeaconCall e) trace)
      = match beacon env with BeaconMissing => 0%nat | _ => 1%nat end
    ∧ (fallback ∈ trace
       ↔ beacon env = BeaconMissing ∨ ∃ e, beacon env = BeaconThrows e)
    ∧ announceTimeoutRef st' = None
    ∧ pendingTimers st' = []
    ∧ (∀ env' h, timerFires env' h st' = (st', [])).
Proof.
  intros Hreach Hconn room leave beaconCall fallback st' trace.
  destruct (reachable_invariants p st Hreach) as (_ & _ & Hown).
  destruct (cleanup_timers p env st Hown) as [Href Hpending].
  subst st' trace. rewrite cleanup_trace, announceCleanup_trace.
  unfold announceLeave, sendLeave.
  destruct (announceCleanup_refs st) as (-> & _ & _).
  rewrite Hconn, leaveAction_announceCleanup.
  change (leaveAction p env st) with leave.
  change BEACON_URL with "/api/collaboration/beacon".
  change EVENT_USER_LEAVE_TYPE with "user_leave".
  change (roomName (Props.chatId p)) with room.
  fold beaconCall fallback.
  exists (match beacon env with
          | BeaconReturns _ => []
          | _ => try_catch (sendResult env ≫= λ _, mret [])
                   (λ _, [ConsoleWarn "Failed to announce user leave:"])
          end).
  split_and!; try done.
  - by destruct (beacon env).
  - destruct (beacon env), (sendResult env); simpl; auto.
  - destruct (announceTimeoutRef st), (beacon env), (sendResult env); reflexivity.
  - subst fallback beaconCall.
    destruct (announceTimeoutRef st), (beacon env) as [|q|e], (sendResult env);
      simpl; rewrite ?elem_of_cons, ?elem_of_nil;
      (split; intros H;
       [ first [ by left | by (right; eexists)
               | repeat (destruct H as [H|H]; try discriminate H); by destruct H ]
       | first [ by (repeat first [ left; reflexivity | right ])
               | by destruct H as [H|[? H]] ] ]).
  - intros env' h. by apply timerFires_idle.
Qed.

Lemma teardown_ordering_witness :
  isConnectedRef exConnected = true
  ∧ length (filter (λ e, isBeaconCall e) (cleanup exProps exHost exConnected).2) = 1%nat
  ∧ pendingTimers (cleanup exProps exHost exConnected).1 = []
  ∧ ∃ later,
      (cleanup exProps exHost exConnected).2
      = [ SendBeacon "/api/collaboration/beacon" "c1"
            (MindMapAction.mk (Some user_leave) None None (Some "u1")
               (Some "Alice") (Some "#EF4444") (Some 1700000000000) None);
          RemoveChannel "chat-collaboration:c1" ] ++ later.
Proof.
  destruct (teardown_ordering exProps exHost exConnected
              exConnected_reachable eq_refl)
    as (later & Htrace & _ & Hcount & _ & _ & Hpending & _).
  split_and!; [reflexivity | exact Hcount | exact Hpending |].
  exists later. exact Htrace.
Defined.



(** C5.  [broadcastAction] sends nothing and settles normally when there is
    no channel or the connected ref is false.  When connected it sends, on
    the [mind_map_action] event, one envelope whose [type], [nodeId],
    [position] and [data] are those of the argument and whose origin fields
    are the local [userId] and [userName], the colour ref and the current
    time; a rejected send is only warned about.  It never raises. *)
Theorem broadcast_fills_origin (p : Props.t) (env : Host) (st : HookState)
    (action : ActionInput.t) :
  (channel st = None ∨ isConnectedRef st = false →
   broadcastAction p env st action = Return [])
  ∧ (∀ ch, channel st = Some ch → isConnectedRef st = true →
       ∃ fullAction warnings,
         broadcastAction p env st action
         = Return (ChannelSend ch EVENT_ACTION_TYPE fullAction :: warnings)
         ∧ MindMapAction.type fullAction = Some (ActionInput.type action)
         ∧ MindMapAction.nodeId fullAction = ActionInput.nodeId action
         ∧ MindMapAction.position fullAction = ActionInput.position action
         ∧ MindMapAction.data fullAction = ActionInput.data action
         ∧ MindMapAction.userId fullAction = Some (Props.userId p)
         ∧ MindMapAction.userName fullAction = Some (Props.userName p)
         ∧ MindMapAction.userColor fullAction = Some (userColorRef st)
         ∧ MindMapAction.timestamp fullAction = Some (now env)
         ∧ warnings
           = match sendResult env with
             | Return _ => []
             | Throw _ => [ConsoleWarn "Failed to broadcast action:"]
             end)
  ∧ (∃ out, broadcastAction p env st action = Return out).
Proof.
  unfold broadcastAction. split_and!.
  - intros [-> | Hoff]; [done|]. rewrite Hoff. by destruct (channel st).
  - intros ch -> ->. simpl.
    destruct (sendResult env); simpl; eexists _, _;
      (split; [reflexivity|]); by split_and!.
  - destruct (channel st); [|by eexists]. destruct (isConnectedRef st); by eexists.
Qed.

Lemma broadcast_fills_origin_witness :
  broadcastAction exProps exHost (initialState exProps)
    (ActionInput.mk cursor_move None (Some {| x := 120; y := 80 |}) None)
  = Return []
  ∧ ∃ fullAction,
      broadcastAction exProps exHost exConnected
        (ActionInput.mk cursor_move None (Some {| x := 120; y := 80 |}) None)
      = Return [ChannelSend "chat-collaboration:c1" "mind_map_action" fullAction]
      ∧ MindMapAction.userColor fullAction = Some "#EF4444".
Proof.
  split.
  - apply (broadcast_fills_origin exProps exHost (initialState exProps)). by left.
  - destruct (proj1 (proj2 (broadcast_fills_origin exProps exHost exConnected
                (ActionInput.mk cursor_move None (Some {| x := 120; y := 80 |}) None)))
              "chat-collaboration:c1" eq_refl eq_refl)
      as (fullAction & warnings & Hsend & _ & _ & _ & _ & _ & _ & Hcolor & _ & Hwarn).
    exists fullAction. split; [|exact Hcolor].
    rewrite Hsend, Hwarn. reflexivity.
Defined.

(** C6.  Colour assignment.  If some palette colour is used by no current
    participant, [assignColor] returns the first such colour of the palette;
    in particular, when fewer distinct colours are in use than the palette
    holds, the colour returned differs from every colour in use.  If every
    palette colour is in use, it returns the palette entry at index
    [floor (8 * random)], an index below 8 that takes the value [k] exactly
    when the random number lies in [[k/8, (k+1)/8)]: eight intervals of the
    same length, one per colour.  In every case the result is one of the 8
    palette colours; the function is total. *)
Theorem assign_color_first_free (r : MathRandom) (currentUsers : Users) :
  (∀ c, c ∈ USER_COLORS → ¬ inUse currentUsers c →
     ∃ before after,
       USER_COLORS = before ++ assignColor r currentUsers :: after
       ∧ Forall (inUse currentUsers) before
       ∧ ¬ inUse currentUsers (assignColor r currentUsers))
  ∧ ((length (remove_dups (CollaborativeUser.color <$> currentUsers))
      < length USER_COLORS)%nat →
     ¬ inUse currentUsers (assignColor r currentUsers))
  ∧ (Forall (inUse currentUsers) USER_COLORS →
     assignColor r currentUsers = USER_COLORS !!! randomIndex r)
  ∧ (randomIndex r < length USER_COLORS)%nat
  ∧ (∀ k : nat,
       randomIndex r = k
       ↔ (inject_Z (Z.of_nat k) / 8 <= rnd r)%Q
         ∧ (rnd r < inject_Z (Z.of_nat k + 1) / 8)%Q)
  ∧ assignColor r currentUsers ∈ USER_COLORS
  ∧ length USER_COLORS = 8%nat.
Proof.
  split_and!.
  - apply assignColor_free.
  - intros Hfew. destruct (palette_pigeonhole currentUsers Hfew) as (c & Hc & Hfree).
    by destruct (assignColor_free r currentUsers c Hc Hfree) as (? & ? & _ & _ & ?).
  - apply assignColor_exhausted.
  - apply randomIndex_lt.
  - apply randomIndex_interval.
  - apply palette_member.
  - reflexivity.
Qed.

Lemma assign_color_first_free_witness :
  assignColor exRandom (collaborativeUsers exConnected) = "#EF4444"
  ∧ ¬ inUse (collaborativeUsers exConnected)
        (assignColor exRandom (collaborativeUsers exConnected))
  ∧ assignColor exRandom exFull = USER_COLORS !!! randomIndex exRandom.
Proof.
  destruct (assign_color_first_free exRandom (collaborativeUsers exConnected))
    as (_ & Hfew & _).
  destruct (assign_color_first_free exRandom exFull) as (_ & _ & Hfull & _).
  split_and!.
  - reflexivity.
  - apply Hfew. vm_compute. lia.
  - apply Hfull. by_compute.
Defined.

(** C7.  Leave tolerance.  [removeOnLeave] for an id that no entry has
    returns the list unchanged; for an id that is present, in a list with at
    most one entry per id, it returns the list with exactly that entry taken
    out.  It reports the list it returns to [onPresenceChange] whenever a
    callback is registered.  The [user_leave] handler never raises on an
    object payload, and for a remote user it applies exactly this update.
    In every reachable state, and for every [userId] an event can carry,
    the handler therefore keeps the state when no participant has that id,
    and otherwise takes out the one entry of that id and reports the
    list. *)
Theorem leave_removes_entry_if_present :
  (∀ cb uid current,
      uid ∉ userIds current → (removeOnLeave cb uid current).1 = current)
  ∧ (∀ cb uid current,
        uniqueIds current → uid ∈ userIds current →
        ∃ before u after,
          current = before ++ u :: after
          ∧ CollaborativeUser.id u = uid
          ∧ (removeOnLeave cb uid current).1 = before ++ after)
  ∧ (∀ f uid current,
        (removeOnLeave (Some f) uid current).2
        = [CallOnPresenceChange f (removeOnLeave (Some f) uid current).1])
  ∧ (∀ p st a, ∃ st' out, onUserLeave p st (PObject a) = Return (st', out))
  ∧ (∀ p st a,
        MindMapAction.userId a ≠ Some (Props.userId p) →
        onUserLeave p st (PObject a)
        = Return
            (let r := removeOnLeave (onPresenceChangeRef st)
                        (MindMapAction.userId a) (collaborativeUsers st) in
             (setCollaborativeUsers r.1 st, r.2)))
  ∧ (∀ p st a,
        reachable p st →
        let uid := MindMapAction.userId a in
        (uid ∉ userIds (collaborativeUsers st) →
         ∃ out, onUserLeave p st (PObject a) = Return (st, out))
        ∧ (uid ∈ userIds (collaborativeUsers st) →
           ∃ before u after,
             collaborativeUsers st = before ++ u :: after
             ∧ CollaborativeUser.id u = uid
             ∧ onUserLeave p st (PObject a)
               = Return
                   (setCollaborativeUsers (before ++ after) st,
                    callOptional (onPresenceChangeRef st) CallOnPresenceChange
                      (before ++ after)))).
Proof.
  split_and!.
  - intros cb uid current Habsent. rewrite remove_updated.
    by apply filter_ids_absent.
  - intros cb uid current Hnd Hin. rewrite remove_updated.
    by apply filter_ids_present.
  - reflexivity.
  - intros p st a. unfold onUserLeave. simpl. case_bool_decide; by eexists _, _.
  - apply onUserLeave_remote.
  - intros p st a Hreach uid.
    destruct (reachable_invariants p st Hreach) as (Hunique & Hself & _).
    split.
    + intros Habsent.
      destruct (decide (uid = Some (Props.userId p))) as [Hown | Hremote].
      * exists []. by apply self_leave_dropped.
      * eexists. rewrite onUserLeave_remote by done. simpl.
        fold uid. rewrite (filter_ids_absent uid) by done.
        by rewrite setCollaborativeUsers_same.
    + intros Hpresent.
      assert (Hremote : uid ≠ Some (Props.userId p)).
      { intros Hown. apply Hself. by rewrite <- Hown. }
      destruct (filter_ids_present uid _ Hunique Hpresent)
        as (before & u & after & Hsplit & Hid & Hfilter).
      exists before, u, after. split_and!; [done..|].
      rewrite onUserLeave_remote by done. simpl. fold uid.
      by rewrite Hfilter.
Qed.

Lemma leave_removes_entry_if_present_witness :
  (removeOnLeave (Some 2%nat) (Some "u3") (collaborativeUsers exConnected)).1
  = collaborativeUsers exConnected
  ∧ ∃ before u after,
      collaborativeUsers exConnected = before ++ u :: after
      ∧ CollaborativeUser.id u = Some "u2"
      ∧ (removeOnLeave (Some 2%nat) (Some "u2") (collaborativeUsers exConnected)).1
        = before ++ after.
Proof.
  destruct leave_removes_entry_if_present as (Habsent & Hpresent & _).
  split.
  - apply Habsent. by_compute.
  - apply Hpresent; by_compute.
Defined.

(** C8, as the code has it.  The handlers cast and do not validate.  An
    absent payload ([undefined] or [null]) makes each of them raise a
    [TypeError].  Any other payload whose [userId] is missing, or is not the
    local one, is handled as a remote event whatever else is missing.  The
    action handler does not raise, keeps the state and passes the payload
    to [onAction] when one is registered, and does nothing when none is.
    The leave handler does not raise, removes the entries of that id and
    reports the resulting list to [onPresenceChange] when one is registered.
    The join handler raises a [RangeError] when the time stamp is missing or
    out of range, and otherwise replaces the entries of that id by one entry
    of the fields that are there and reports the resulting list to
    [onPresenceChange] when one is registered.  A leave without [userId]
    removes nothing from a list whose entries all have an id. *)
Theorem payloads_are_not_validated (p : Props.t) (st : HookState) :
  (∀ payload, payload = PUndefined ∨ payload = PNull →
     onMindMapAction p st payload = Throw TypeError
     ∧ onUserJoin p st payload = Throw TypeError
     ∧ onUserLeave p st payload = Throw TypeError)
  ∧ (∀ payload uid,
       property MindMapAction.userId payload = Return uid →
       uid ≠ Some (Props.userId p) →
       onMindMapAction p st payload
       = Return (st, callOptional (onActionRef st) CallOnAction payload)
       ∧ (∀ f, onActionRef st = Some f →
            onMindMapAction p st payload = Return (st, [CallOnAction f payload]))
       ∧ (onActionRef st = None →
            onMindMapAction p st payload = Return (st, []))
       ∧ onUserLeave p st payload
         = Return
             (let updated :=
                filter (λ u, CollaborativeUser.id u ≠ uid) (collaborativeUsers st) in
              (setCollaborativeUsers updated st,
               callOptional (onPresenceChangeRef st) CallOnPresenceChange updated))
       ∧ (∀ ts,
            property MindMapAction.timestamp payload = Return ts →
            JsDate.construct ts = None →
            onUserJoin p st payload = Throw RangeError)
       ∧ (∀ name color t,
            property MindMapAction.userName payload = Return name →
            property MindMapAction.userColor payload = Return color →
            property MindMapAction.timestamp payload = Return (Some t) →
            Z.abs t ≤ JsDate.maxTime →
            onUserJoin p st payload
            = Return
                (let updated :=
                   filter (λ u, CollaborativeUser.id u ≠ uid) (collaborativeUsers st)
                   ++ [CollaborativeUser.mk uid name color (JsDate.format t)] in
                 (setCollaborativeUsers updated st,
                  callOptional (onPresenceChangeRef st) CallOnPresenceChange
                    updated))))
  ∧ (∀ cb current,
       Forall (λ u, is_Some (CollaborativeUser.id u)) current →
       (removeOnLeave cb None current).1 = current).
Proof.
  split_and!.
  - by intros payload [-> | ->].
  - intros payload uid Huid Hremote.
    pose proof (onMindMapAction_other p st payload uid Huid Hremote) as Hact.
    split_and!.
    + exact Hact.
    + intros f Hf. by rewrite Hact, Hf.
    + intros Hnone. by rewrite Hact, Hnone.
    + exact (onUserLeave_other p st payload uid Huid Hremote).
    + intros ts. by apply (onUserJoin_invalid_time p st payload uid).
    + intros name color t Hname Hcolor Hts Ht.
      exact (onUserJoin_other p st payload uid name color t
               Huid Hremote Hname Hcolor Hts Ht).
  - intros cb current Hids. rewrite remove_updated. apply filter_ids_absent.
    unfold userIds. intros (u & Hnone & Hu)%list_elem_of_fmap.
    rewrite Forall_forall in Hids. specialize (Hids u Hu).
    rewrite <- Hnone in Hids. by destruct Hids.
Qed.

Lemma payloads_are_not_validated_witness :
  onMindMapAction exProps exConnected (PPrimitive (JsString "ping"))
  = Return (exConnected, [CallOnAction 1%nat (PPrimitive (JsString "ping"))])
  ∧ onUserLeave exProps exConnected (PObject emptyAction)
    = Return (exConnected,
              [CallOnPresenceChange 2%nat (collaborativeUsers exConnected)])
  ∧ onUserJoin exProps exConnected (PObject emptyAction) = Throw RangeError.
Proof.
  destruct (payloads_are_not_validated exProps exConnected) as (_ & Hremote & _).
  destruct (Hremote (PPrimitive (JsString "ping")) None eq_refl) as (Hact & _);
    [discriminate|].
  destruct (Hremote (PObject emptyAction) None eq_refl)
    as (_ & _ & _ & Hleave & Hjoin & _); [discriminate|].
  split_and!.
  - exact Hact.
  - rewrite Hleave. reflexivity.
  - apply (Hjoin None); reflexivity.
Defined.

(** C8 as stated fails: an object payload with no field at all reaches
    [onAction], makes the join handler raise, and an absent payload makes it
    raise as well. *)
Lemma malformed_payload_not_ignored :
  property MindMapAction.userId (PObject emptyAction) = Return None
  ∧ onMindMapAction exProps exConnected (PObject emptyAction)
    = Return (exConnected, [CallOnAction 1%nat (PObject emptyAction)])
  ∧ onUserJoin exProps exConnected (PObject emptyAction) = Throw RangeError
  ∧ onUserJoin exProps exConnected PUndefined = Throw TypeError.
Proof. by split_and!. Qed.

(** C9.  The channel topic is ["chat-collaboration:"] followed by the
    [chatId], and depends on nothing else: whenever the channel effect
    creates a channel its topic is that string, and two sessions with the
    same [chatId], whatever their users and states, create channels of the
    same topic. *)
Theorem channel_topic_from_chatId :
  (∀ chatId, roomName chatId = "chat-collaboration:" +:+ chatId)
  ∧ (∀ p st topic,
       CreateChannel topic ∈ (initEffect p st).2 →
       topic = "chat-collaboration:" +:+ Props.chatId p
       ∧ channel (initEffect p st).1 = Some topic)
  ∧ (∀ p1 p2 st1 st2 topic1 topic2,
       Props.chatId p1 = Props.chatId p2 →
       CreateChannel topic1 ∈ (initEffect p1 st1).2 →
       CreateChannel topic2 ∈ (initEffect p2 st2).2 →
       topic1 = topic2).
Proof.
  assert (Hcreated : ∀ p st topic,
             CreateChannel topic ∈ (initEffect p st).2 →
             topic = "chat-collaboration:" +:+ Props.chatId p
             ∧ channel (initEffect p st).1 = Some topic).
  { intros p st topic. unfold initEffect.
    destruct (_ || _); simpl.
    - by intros ?%elem_of_nil.
    - rewrite !elem_of_cons, elem_of_nil.
      intros [[= ->] | [[=] | []]]. by split. }
  split_and!.
  - reflexivity.
  - exact Hcreated.
  - intros p1 p2 st1 st2 topic1 topic2 Hchat [-> _]%Hcreated [-> _]%Hcreated.
    by rewrite Hchat.
Qed.

Lemma channel_topic_from_chatId_witness :
  channel (initEffect (Props.mk "c1" "u2" "Bob" None None) exConnected).1
  = Some "chat-collaboration:c1"
  ∧ channel (initEffect exProps (initialState exProps)).1
    = Some "chat-collaboration:c1".
Proof.
  destruct channel_topic_from_chatId as (_ & Hcreated & _).
  split.
  - apply (Hcreated (Props.mk "c1" "u2" "Bob" None None) exConnected).
    vm_compute. left.
  - apply (Hcreated exProps (initialState exProps)). vm_compute. left.
Defined.

(** C10.  [updateSelectedNode(null)] broadcasts nothing.  Whenever a call
    does send an envelope, its [nodeId] argument was not [null], and the
    envelope is a [node_select] action carrying that [nodeId]; a call with a
    non-empty [nodeId] on a connected channel sends it. *)
Theorem select_null_not_broadcast (p : Props.t) (env : Host) (st : HookState) :
  updateSelectedNode p env st None = Return []
  ∧ (∀ nodeId out topic event payload,
       updateSelectedNode p env st nodeId = Return out →
       ChannelSend topic event payload ∈ out →
       ∃ n, nodeId = Some n
            ∧ event = EVENT_ACTION_TYPE
            ∧ MindMapAction.type payload = Some node_select
            ∧ MindMapAction.nodeId payload = Some n)
  ∧ (∀ n ch,
       n ≠ "" → channel st = Some ch → isConnectedRef st = true →
       ∃ fullAction warnings,
         updateSelectedNode p env st (Some n)
         = Return (ChannelSend ch EVENT_ACTION_TYPE fullAction :: warnings)
         ∧ MindMapAction.type fullAction = Some node_select
         ∧ MindMapAction.nodeId fullAction = Some n).
Proof.
  split_and!.
  - reflexivity.
  - intros nodeId out topic event payload.
    unfold updateSelectedNode, broadcastAction.
    destruct nodeId as [n|]; simpl.
    2: { intros [= <-]. by intros ?%elem_of_nil. }
    destruct (bool_decide (n = "")); simpl.
    { intros [= <-]. by intros ?%elem_of_nil. }
    destruct (channel st) as [ch|]; simpl.
    2: { intros [= <-]. by intros ?%elem_of_nil. }
    destruct (isConnectedRef st); simpl.
    2: { intros [= <-]. by intros ?%elem_of_nil. }
    destruct (sendResult env); simpl; intros [= <-];
      rewrite ?elem_of_cons, elem_of_nil;
      intros H; repeat (destruct H as [H|H]; try discriminate H);
      try (by destruct H); injection H as -> -> ->; by exists n.
  - intros n ch Hn Hch Hconn.
    unfold updateSelectedNode, broadcastAction. simpl.
    rewrite bool_decide_eq_false_2, Hch, Hconn by done. simpl.
    destruct (sendResult env); simpl; by eexists _, _.
Qed.

Lemma select_null_not_broadcast_witness :
  updateSelectedNode exProps exHost exConnected None = Return []
  ∧ ∃ fullAction warnings,
      updateSelectedNode exProps exHost exConnected (Some "n1")
      = Return (ChannelSend "chat-collaboration:c1" EVENT_ACTION_TYPE fullAction
                  :: warnings)
      ∧ MindMapAction.nodeId fullAction = Some "n1".
Proof.
  destruct (select_null_not_broadcast exProps exHost exConnected)
    as (Hnull & _ & Hsend).
  split; [exact Hnull|].
  destruct (Hsend "n1" "chat-collaboration:c1") as (fullAction & warnings & H1 & _ & H2);
    [discriminate | reflexivity | reflexivity |].
  by exists fullAction, warnings.
Defined.

(** * Further properties

    Invariants of the reachable states, what the hook sends, and how the
    registry updates, the status callback and the join announcement
    compose. *)

(** ** Helper lemmas *)

Section composition.
Implicit Types (us current : Users) (uid : option string) (cb : option Callback).

Lemma filter_ids_comm uid1 uid2 us :
  filter (λ u, CollaborativeUser.id u ≠ uid1)
    (filter (λ u, CollaborativeUser.id u ≠ uid2) us)
  = filter (λ u, CollaborativeUser.id u ≠ uid2)
      (filter (λ u, CollaborativeUser.id u ≠ uid1) us).
Proof. rewrite !list_filter_filter. apply list_filter_iff. tauto. Qed.

Lemma filter_ids_idem uid us :
  filter (λ u, CollaborativeUser.id u ≠ uid)
    (filter (λ u, CollaborativeUser.id u ≠ uid) us)
  = filter (λ u, CollaborativeUser.id u ≠ uid) us.
Proof. by rewrite list_filter_filter_l. Qed.
End composition.

Section origin.
Implicit Types (p : Props.t) (env : Host) (st : HookState) (ev : Event).

Ltac open_coherent H := pose proof H as (Hc & Hr & Hch & Ht).

Ltac each_effect :=
  repeat first [ apply Forall_nil_2 | apply Forall_cons_2 ];
  simpl; try done; try (split_and!; done).

Lemma coherent_initial p : coherent p (initialState p).
Proof.
  split_and!; simpl.
  - left.
  - left.
  - done.
  - by intros e ?%elem_of_nil.
Qed.

Lemma coherent_users p us st :
  coherent p st → coherent p (setCollaborativeUsers us st).
Proof. done. Qed.

Lemma clearTimeout_subseteq h pending e :
  e ∈ clearTimeout h pending → e ∈ pending.
Proof. by intros [_ ?]%list_elem_of_filter. Qed.

Lemma announceCleanup_coherent p st :
  coherent p st → coherent p (announceCleanup st).1.
Proof.
  intros Hco. open_coherent Hco. unfold announceCleanup, clearAnnounceTimeout.
  destruct (announceTimeoutRef st); simpl; [|done].
  unfold coherent. split_and!; simpl; try done. intros e He%clearTimeout_subseteq. by apply Ht.
Qed.

Lemma announceEffect_coherent p st :
  coherent p st → coherent p (announceEffect p st).1.
Proof.
  intros Hco. open_coherent Hco. unfold announceEffect.
  destruct (channel st) as [ch|] eqn:Hchan; [|done].
  destruct (_ && _); [|done].
  assert (Hsub : ∀ e, e ∈ (clearAnnounceTimeout st).1 → e ∈ pendingTimers st).
  { unfold clearAnnounceTimeout. destruct (announceTimeoutRef st); simpl; [|done].
    intros e. apply clearTimeout_subseteq. }
  destruct (clearAnnounceTimeout st) as [pending cleared]. simpl in *.
  unfold coherent. split_and!; simpl; try done.
  - rewrite Hchan. apply Hch.
  - intros e [-> | He]%elem_of_cons; simpl.
    + split_and!; try done. by apply Hch.
    + by apply Ht, Hsub.
Qed.

Lemma timerFires_coherent p env h st :
  coherent p st → coherent p (timerFires env h st).1.
Proof.
  intros Hco. open_coherent Hco. unfold timerFires.
  destruct (list_find _ _) as [[i [h' c]]|]; [|done].
  assert (Hsub : ∀ e, e ∈ clearTimeout h (pendingTimers st) →
                      jc_channel e.2 = roomName (Props.chatId p)
                      ∧ jc_userId e.2 = Props.userId p
                      ∧ jc_userName e.2 = Props.userName p
                      ∧ jc_userColor e.2 ∈ USER_COLORS).
  { intros e He%clearTimeout_subseteq. by apply Ht. }
  by destruct (sendResult env); unfold coherent; split_and!.
Qed.

Lemma onStatus_coherent p env st status :
  coherent p st → coherent p (onStatus p env st status).1.
Proof.
  intros Hco. open_coherent Hco.
  destruct status; simpl; unfold coherent; split_and!; simpl; try done.
  apply palette_member.
Qed.

Lemma cleanup_coherent p env st :
  coherent p st → coherent p (cleanup p env st).1.
Proof.
  intros Hco. rewrite cleanup_state.
  pose proof (announceCleanup_coherent p st Hco) as Hco1.
  open_coherent Hco1. unfold coherent. by split_and!.
Qed.

Lemma handler_frame p st payload st' out :
  onMindMapAction p st payload = Return (st', out)
  ∨ onUserJoin p st payload = Return (st', out)
  ∨ onUserLeave p st payload = Return (st', out) →
  ∃ us, st' = setCollaborativeUsers us st.
Proof.
  intros [H | [H | H]].
  - apply onMindMapAction_state in H as ->.
    exists (collaborativeUsers st). by rewrite setCollaborativeUsers_same.
  - unfold onUserJoin in H.
    destruct payload as [| |v|a]; simpl in H; try discriminate.
    case_bool_decide.
    + injection H as <- _. exists (collaborativeUsers st).
      by rewrite setCollaborativeUsers_same.
    + destruct (JsDate.toISOString _); simpl in H; [discriminate|].
      injection H as <- _. by eexists.
  - unfold onUserLeave in H.
    destruct payload as [| |v|a]; simpl in H; try discriminate.
    + injection H as <- _. by eexists.
    + case_bool_decide; injection H as <- _.
      * exists (collaborativeUsers st). by rewrite setCollaborativeUsers_same.
      * by eexists.
Qed.

Lemma step_coherent p env st ev st' out :
  step p env st ev = Return (st', out) → coherent p st → coherent p st'.
Proof.
  destruct ev; simpl; intros Hstep Hco;
    try (apply Return_fst in Hstep; subst st').
  - unfold initEffect. destruct (_ || _); [done|].
    open_coherent Hco. unfold coherent. split_and!; simpl; try done.
    by intros ch [= <-].
  - open_coherent Hco. unfold coherent. by split_and!.
  - by apply announceEffect_coherent.
  - by apply announceCleanup_coherent.
  - by apply timerFires_coherent.
  - by apply onStatus_coherent.
  - destruct (handler_frame p st payload st' out) as [us ->]; auto.
  - destruct (handler_frame p st payload st' out) as [us ->]; auto.
  - destruct (handler_frame p st payload st' out) as [us ->]; auto.
  - by apply cleanup_coherent.
Qed.

Lemma reachable_coherent p st : reachable p st → coherent p st.
Proof.
  induction 1 as [|env st ev st' out _ IH Hstep].
  - apply coherent_initial.
  - by eapply step_coherent.
Qed.

Lemma cleanup_wellAddressed p env st :
  coherent p st → Forall (wellAddressed p) (cleanup p env st).2.
Proof.
  intros Hco. rewrite cleanup_trace, announceCleanup_trace.
  pose proof (announceCleanup_coherent p st Hco) as (_ & Hr & _ & _).
  assert (Hleave : fromLocalUser p (leaveAction p env (announceCleanup st).1)).
  { unfold fromLocalUser, leaveAction. simpl. split_and!; eauto. }
  unfold announceLeave, sendLeave.
  destruct (announceTimeoutRef st), (isConnectedRef _), (beacon env),
    (sendResult env); simpl; each_effect.
Qed.

Lemma timerFires_wellAddressed p env h st :
  coherent p st → Forall (wellAddressed p) (timerFires env h st).2.
Proof.
  intros (_ & _ & _ & Ht). unfold timerFires.
  destruct (list_find _ _) as [[i [h' c]]|] eqn:Hfind; [|constructor].
  apply list_find_Some in Hfind as (Hlook & _ & _).
  apply list_elem_of_lookup_2 in Hlook.
  destruct (Ht _ Hlook) as (Hch & Hid & Hname & Hcol). simpl in *.
  assert (Hjoin : ∀ now_, fromLocalUser p
            {| MindMapAction.type := Some user_join;
               MindMapAction.nodeId := None;
               MindMapAction.position := None;
               MindMapAction.userId := Some (jc_userId c);
               MindMapAction.userName := Some (jc_userName c);
               MindMapAction.userColor := Some (jc_userColor c);
               MindMapAction.timestamp := Some now_;
               MindMapAction.data := None |}).
  { intros now_. unfold fromLocalUser. simpl. rewrite Hid, Hname.
    split_and!; eauto. }
  destruct (sendResult env); simpl; each_effect.
Qed.

Lemma handlers_wellAddressed p st payload st' out :
  onMindMapAction p st payload = Return (st', out)
  ∨ onUserJoin p st payload = Return (st', out)
  ∨ onUserLeave p st payload = Return (st', out) →
  Forall (λ e, ∃ f, (∃ a, e = CallOnAction f a) ∨ (∃ us, e = CallOnPresenceChange f us)) out.
Proof.
  assert (Hcalls : ∀ ref us,
    Forall (λ e, ∃ f, (∃ a, e = CallOnAction f a) ∨ (∃ us, e = CallOnPresenceChange f us))
      (callOptional ref CallOnPresenceChange us)).
  { intros [f|] us; simpl; repeat constructor. exists f. right. by eexists. }
  intros [H | [H | H]].
  - unfold onMindMapAction in H.
    destruct payload as [| |v|a]; simpl in H; try discriminate.
    + injection H as _ <-. destruct (onActionRef st) as [f|]; simpl; repeat constructor.
      exists f. left. by eexists.
    + case_bool_decide; injection H as _ <-; [constructor|].
      destruct (onActionRef st) as [f|]; simpl; repeat constructor.
      exists f. left. by eexists.
  - unfold onUserJoin in H.
    destruct payload as [| |v|a]; simpl in H; try discriminate.
    case_bool_decide.
    + injection H as _ <-. constructor.
    + destruct (JsDate.toISOString _); simpl in H; [discriminate|].
      injection H as _ <-. apply Hcalls.
  - unfold onUserLeave in H.
    destruct payload as [| |v|a]; simpl in H; try discriminate.
    + injection H as _ <-. apply Hcalls.
    + case_bool_decide; injection H as _ <-; [constructor | apply Hcalls].
Qed.
End origin.

Section pending.
Implicit Types (p : Props.t) (env : Host) (st : HookState) (ev : Event).

Lemma Return_snd {A B} (x : A * B) (a : A) (b : B) :
  mret x = Return (a, b) → x.2 = b.
Proof. by intros [= ->]. Qed.

Lemma filter_length_le1 {A} (P : A → Prop) `{!∀ x, Decision (P x)} (l : list A) :
  (length l ≤ 1)%nat → (length (filter P l) ≤ 1)%nat.
Proof. intros Hl. pose proof (length_filter P l). lia. Qed.

Lemma step_single_timer p env st ev st' out :
  step p env st ev = Return (st', out) →
  timersOwned st → (length (pendingTimers st) ≤ 1)%nat →
  (length (pendingTimers st') ≤ 1)%nat.
Proof.
  destruct ev; simpl; intros Hstep Hown Hlen;
    try (apply Return_fst in Hstep; subst st').
  - unfold initEffect. by destruct (_ || _).
  - done.
  - pose proof (clearAnnounceTimeout_owned st Hown) as Hclr.
    unfold announceEffect. destruct (channel st); [|done].
    destruct (_ && _); [|done].
    destruct (clearAnnounceTimeout st) as [pending cleared].
    simpl in *. by subst pending.
  - destruct (announceCleanup_timers st Hown) as [_ ->]. simpl. lia.
  - unfold timerFires. destruct (list_find _ _) as [[i [h' c]]|]; [|done].
    assert (length (clearTimeout h (pendingTimers st)) ≤ 1)%nat
      by by apply filter_length_le1.
    by destruct (sendResult env).
  - by destruct status.
  - by rewrite (onMindMapAction_state _ _ _ _ _ Hstep).
  - apply handler_timers_join in Hstep as [-> _]. done.
  - apply handler_timers_leave in Hstep as [-> _]. done.
  - destruct (cleanup_timers p env st Hown) as [_ ->]. simpl. lia.
Qed.

Lemma reachable_single_timer p st :
  reachable p st → (length (pendingTimers st) ≤ 1)%nat.
Proof.
  induction 1 as [|env st ev st' out Hreach IH Hstep]; [simpl; lia|].
  destruct (reachable_invariants p st Hreach) as (_ & _ & Hown).
  by eapply step_single_timer.
Qed.
End pending.

Lemma announceCleanup_ref (st : HookState) :
  announceTimeoutRef (announceCleanup st).1 = None.
Proof.
  unfold announceCleanup, clearAnnounceTimeout.
  by destruct (announceTimeoutRef st) eqn:Href.
Qed.

Section instants.
Implicit Types (p : Props.t) (env : Host) (st : HookState).

Lemma Forall_filter_keep {A} (P Q : A → Prop) `{!∀ x, Decision (Q x)} (l : list A) :
  Forall P l → Forall P (filter Q l).
Proof.
  rewrite !Forall_forall. intros Hall x [_ Hx]%list_elem_of_filter. by apply Hall.
Qed.

Lemma toISOString_instant ts s :
  JsDate.toISOString (JsDate.construct ts) = Return s → isoInstant s.
Proof.
  destruct ts as [t|]; [|discriminate]. unfold JsDate.construct, JsDate.TimeClip.
  case_bool_decide; [|discriminate]. intros [= <-]. by exists t.
Qed.

Lemma onUserJoin_instants p st payload st' out :
  onUserJoin p st payload = Return (st', out) →
  Forall (λ u, isoInstant (CollaborativeUser.online_at u)) (collaborativeUsers st) →
  Forall (λ u, isoInstant (CollaborativeUser.online_at u)) (collaborativeUsers st').
Proof.
  unfold onUserJoin.
  destruct payload as [| |v|a]; simpl; try discriminate.
  case_bool_decide; [by intros [= <- _]|].
  destruct (JsDate.toISOString _) as [e|iso] eqn:Hiso; simpl; [discriminate|].
  intros [= <- _] Hall. simpl. apply Forall_app. split.
  - by apply Forall_filter_keep.
  - repeat constructor. simpl. by eapply toISOString_instant.
Qed.

Lemma step_instants p env st ev st' out :
  step p env st ev = Return (st', out) →
  Forall (λ u, isoInstant (CollaborativeUser.online_at u)) (collaborativeUsers st) →
  Forall (λ u, isoInstant (CollaborativeUser.online_at u)) (collaborativeUsers st').
Proof.
  destruct ev; simpl; intros Hstep Hall;
    try (apply Return_fst in Hstep; subst st').
  - by rewrite initEffect_users.
  - done.
  - by rewrite announceEffect_users.
  - by rewrite announceCleanup_users.
  - by rewrite timerFires_users.
  - by rewrite onStatus_users.
  - by rewrite (onMindMapAction_state _ _ _ _ _ Hstep).
  - by eapply onUserJoin_instants.
  - apply onUserLeave_users in Hstep as [-> | (uid & _ & ->)]; [done|].
    rewrite remove_updated. by apply Forall_filter_keep.
  - rewrite cleanup_users. constructor.
Qed.

Lemma reachable_instants p st :
  reachable p st →
  Forall (λ u, isoInstant (CollaborativeUser.online_at u)) (collaborativeUsers st).
Proof.
  induction 1 as [|env st ev st' out _ IH Hstep]; [constructor|].
  by eapply step_instants.
Qed.
End instants.


(** ** Invariants of the reachable states *)

(** X1.  In every reachable state no participant is the local user, and
    every participant's [online_at] is the ISO form of a time value in the
    range of [Date]: an event of the user's own, or one whose time stamp
    [toISOString] rejects, never enters the list. *)
Theorem participants_are_remote_and_dated (p : Props.t) (st : HookState) :
  reachable p st →
  ∀ u, u ∈ collaborativeUsers st →
    CollaborativeUser.id u ≠ Some (Props.userId p)
    ∧ ∃ t, Z.abs t ≤ JsDate.maxTime
           ∧ CollaborativeUser.online_at u = JsDate.format t.
Proof.
  intros Hreach u Hu. split.
  - destruct (reachable_invariants p st Hreach) as (_ & Hself & _).
    intros Hid. apply Hself. rewrite <- Hid. by apply list_elem_of_fmap_2.
  - pose proof (reachable_instants p st Hreach) as Hall.
    rewrite Forall_forall in Hall. exact (Hall u Hu).
Qed.

Lemma participants_are_remote_and_dated_witness :
  let bob :=
    CollaborativeUser.mk (Some "u2") (Some "Bob") (Some "#3B82F6")
      "2023-11-14T22:13:20.000Z" in
  CollaborativeUser.id bob ≠ Some "u1"
  ∧ ∃ t, Z.abs t ≤ JsDate.maxTime
         ∧ CollaborativeUser.online_at bob = JsDate.format t.
Proof.
  intros bob.
  apply (participants_are_remote_and_dated exProps exConnected
           exConnected_reachable bob).
  vm_compute. left.
Defined.

(** X2.  At most one join announcement is scheduled at any time, the one
    whose handle the ref holds; a timer of any other handle does nothing
    when it comes due. *)
Theorem at_most_one_pending_announcement (p : Props.t) (st : HookState) :
  reachable p st →
  (length (pendingTimers st) ≤ 1)%nat
  ∧ (∀ e, e ∈ pendingTimers st → announceTimeoutRef st = Some e.1)
  ∧ (∀ env h, announceTimeoutRef st ≠ Some h → timerFires env h st = (st, [])).
Proof.
  intros Hreach. destruct (reachable_invariants p st Hreach) as (_ & _ & Hown).
  split_and!.
  - by apply (reachable_single_timer p).
  - exact Hown.
  - intros env h Hne. unfold timerFires.
    destruct (list_find _ _) as [[i [h' c]]|] eqn:Hfind; [|done].
    apply list_find_Some in Hfind as (Hlook & Hh & _). simpl in Hh. subst h'.
    apply list_elem_of_lookup_2, Hown in Hlook. by destruct Hne.
Qed.

Lemma exScheduled_reachable : reachable exProps exScheduled.
Proof. apply run_reachable, reachable_initial. Qed.

Lemma at_most_one_pending_announcement_witness :
  length (pendingTimers exScheduled) = 1%nat
  ∧ announceTimeoutRef exScheduled = Some 1%nat
  ∧ timerFires exHost 7%nat exScheduled = (exScheduled, []).
Proof.
  destruct (at_most_one_pending_announcement exProps exScheduled
              exScheduled_reachable) as (_ & _ & Hother).
  split_and!; [reflexivity | reflexivity |].
  apply Hother. discriminate.
Defined.

(** X3.  Whatever the hook sends comes from the local user.  Every channel
    send and every beacon call that a step or [broadcastAction] makes in a
    reachable state goes to the topic (or carries the id) of the chat, and
    its envelope has the local [userId] and [userName], a colour of the
    palette, a type and a time stamp. *)
Theorem outbound_envelopes_from_local_user (p : Props.t) (st : HookState) :
  reachable p st →
  (∀ env ev st' out,
     step p env st ev = Return (st', out) → Forall (wellAddressed p) out)
  ∧ (∀ env action out,
       broadcastAction p env st action = Return out →
       Forall (wellAddressed p) out).
Proof.
  intros Hco%reachable_coherent. split.
  - intros env ev st' out Hstep. destruct ev; simpl in Hstep;
      try (apply Return_snd in Hstep; subst out).
    + unfold initEffect. destruct (_ || _); simpl; repeat constructor.
    + constructor.
    + unfold announceEffect. destruct (channel st); [|constructor].
      destruct (_ && _); [|constructor].
      unfold clearAnnounceTimeout. destruct (announceTimeoutRef st); simpl;
        repeat constructor.
    + rewrite announceCleanup_trace. destruct (announceTimeoutRef st);
        repeat constructor.
    + by apply timerFires_wellAddressed.
    + destruct status; simpl; repeat constructor.
    + eapply Forall_impl; [apply (handlers_wellAddressed p st payload st'); auto|].
      by intros e (f & [(a & ->) | (us & ->)]).
    + eapply Forall_impl; [apply (handlers_wellAddressed p st payload st'); auto|].
      by intros e (f & [(a & ->) | (us & ->)]).
    + eapply Forall_impl; [apply (handlers_wellAddressed p st payload st'); auto|].
      by intros e (f & [(a & ->) | (us & ->)]).
    + by apply cleanup_wellAddressed.
  - intros env action out. destruct Hco as (_ & Hr & Hch & _).
    unfold broadcastAction. destruct (channel st) as [ch|] eqn:Hchan.
    2: { intros [= <-]. constructor. }
    destruct (isConnectedRef st); simpl.
    2: { intros [= <-]. constructor. }
    specialize (Hch ch eq_refl). subst ch.
    intros [= <-].
    destruct (sendResult env); simpl; repeat first [ apply Forall_nil_2 | apply Forall_cons_2 ];
      simpl; try done; (split; [done|]); unfold fromLocalUser; simpl;
      split_and!; eauto.
Qed.

Lemma outbound_envelopes_from_local_user_witness :
  Forall (wellAddressed exProps) (cleanup exProps exHost exConnected).2
  ∧ Forall (wellAddressed exProps) (timerFires exHost 1%nat exScheduled).2.
Proof.
  split.
  - apply (proj1 (outbound_envelopes_from_local_user exProps exConnected
                    exConnected_reachable) exHost Unmount
                 (cleanup exProps exHost exConnected).1).
    reflexivity.
  - apply (proj1 (outbound_envelopes_from_local_user exProps exScheduled
                    exScheduled_reachable) exHost (TimerFires 1%nat)
                 (timerFires exHost 1%nat exScheduled).1).
    reflexivity.
Defined.

(** ** The receive handlers *)

(** X4.  Receiving never sends.  A receive handler that returns has changed
    nothing but the participant list (connection flag, colour, channel, refs
    and timers are as before), and every effect it has, the state updater it
    hands over included, is a call of one of the caller's two callbacks: no
    channel send, no beacon call, no timer set or cleared. *)
Theorem receive_handlers_only_call_back (p : Props.t) (st st' : HookState)
    (payload : Payload) (out : list Effect) :
  onMindMapAction p st payload = Return (st', out)
  ∨ onUserJoin p st payload = Return (st', out)
  ∨ onUserLeave p st payload = Return (st', out) →
  (∃ us, st' = setCollaborativeUsers us st)
  ∧ Forall (λ e, isCallback e) out.
Proof.
  intros H. split.
  - by apply (handler_frame p st payload st' out).
  - eapply Forall_impl; [by apply (handlers_wellAddressed p st payload st')|].
    by intros e (f & [(a & ->) | (us & ->)]).
Qed.

Lemma receive_handlers_only_call_back_witness :
  ∃ st' out,
    onUserJoin exProps exMounted (PObject exJoin) = Return (st', out)
    ∧ (∃ us, st' = setCollaborativeUsers us exMounted)
    ∧ Forall (λ e, isCallback e) out.
Proof.
  eexists _, _. split; [reflexivity|].
  apply (receive_handlers_only_call_back exProps exMounted _ (PObject exJoin)).
  right. left. reflexivity.
Defined.

(** ** Connection and join announcement *)

(** X5.  The status callback marks the session connected for [SUBSCRIBED]
    and for no other status.  It never touches the participant list, the
    channel or a scheduled announcement; [SUBSCRIBED] stores the assigned
    colour and requests the announcement, every other status leaves colour
    and request as they were. *)
Theorem connected_only_when_subscribed (p : Props.t) (env : Host)
    (st : HookState) (status : Status) :
  let st' := (onStatus p env st status).1 in
  (isConnected st' = true ↔ status = SUBSCRIBED)
  ∧ collaborativeUsers st' = collaborativeUsers st
  ∧ channel st' = channel st
  ∧ pendingTimers st' = pendingTimers st
  ∧ (status = SUBSCRIBED →
     userColor st' = assignColor (random env) (collaborativeUsers st)
     ∧ shouldAnnounceJoin st' = true)
  ∧ (status ≠ SUBSCRIBED →
     userColor st' = userColor st
     ∧ shouldAnnounceJoin st' = shouldAnnounceJoin st).
Proof. destruct status; simpl; split_and!; try done; by split. Qed.

Lemma connected_only_when_subscribed_witness :
  userColor (onStatus exProps exHost exConnected SUBSCRIBED).1 = "#EF4444"
  ∧ userColor (onStatus exProps exHost exConnected TIMED_OUT).1 = "#EF4444"
  ∧ isConnected (onStatus exProps exHost exConnected TIMED_OUT).1 ≠ true.
Proof.
  destruct (connected_only_when_subscribed exProps exHost exConnected SUBSCRIBED)
    as (_ & _ & _ & _ & Hsub & _).
  destruct (connected_only_when_subscribed exProps exHost exConnected TIMED_OUT)
    as (Hiff & _ & _ & _ & _ & Hkeep).
  split_and!.
  - destruct (Hsub eq_refl) as [-> _]. reflexivity.
  - destruct Hkeep as [-> _]; [discriminate | reflexivity].
  - intros Hon. apply Hiff in Hon. discriminate Hon.
Defined.

(** X6.  [broadcastAction] goes by the connected ref, not by the state:
    right after the [SUBSCRIBED] callback, while the ref still says
    disconnected, an action is dropped although the state says connected;
    once the commit has synchronised the refs it is sent, with the colour
    just assigned. *)
Theorem broadcast_waits_for_commit (p : Props.t) (env env' : Host)
    (st : HookState) (ch : string) (action : ActionInput.t) :
  channel st = Some ch →
  isConnectedRef st = false →
  let st1 := (onStatus p env st SUBSCRIBED).1 in
  isConnected st1 = true
  ∧ broadcastAction p env' st1 action = Return []
  ∧ ∃ fullAction warnings,
      broadcastAction p env' (syncRefs p st1) action
      = Return (ChannelSend ch EVENT_ACTION_TYPE fullAction :: warnings)
      ∧ MindMapAction.userColor fullAction
        = Some (assignColor (random env) (collaborativeUsers st)).
Proof.
  intros Hch Hoff st1. subst st1. unfold broadcastAction. simpl.
  rewrite Hch, Hoff. simpl. split_and!; try done.
  destruct (sendResult env'); simpl; by eexists _, _.
Qed.

Lemma broadcast_waits_for_commit_witness :
  broadcastAction exProps exHost (onStatus exProps exHost exMounted SUBSCRIBED).1
    (ActionInput.mk node_move (Some "n1") None None)
  = Return []
  ∧ ∃ fullAction warnings,
      broadcastAction exProps exHost
        (syncRefs exProps (onStatus exProps exHost exMounted SUBSCRIBED).1)
        (ActionInput.mk node_move (Some "n1") None None)
      = Return (ChannelSend "chat-collaboration:c1" EVENT_ACTION_TYPE fullAction
                  :: warnings)
      ∧ MindMapAction.userColor fullAction = Some "#3B82F6".
Proof.
  destruct (broadcast_waits_for_commit exProps exHost exHost exMounted
              "chat-collaboration:c1"
              (ActionInput.mk node_move (Some "n1") None None) eq_refl eq_refl)
    as (_ & Hdrop & fullAction & warnings & Hsend & Hcolor).
  split; [exact Hdrop|]. by exists fullAction, warnings.
Defined.

(** X7.  The join handshake.  After [SUBSCRIBED] the announcement effect
    sends nothing itself: it cancels the timer the ref holds, if any, and
    schedules one timer with a delay of 100 ms.  When that timer comes due
    it sends one [user_join] envelope on the channel, with the local user
    and the colour assigned at [SUBSCRIBED]; a send that succeeds withdraws
    the request, so that the effect schedules nothing more, and a send that
    fails is warned about and leaves the request standing. *)
Theorem join_announced_once_after_delay (p : Props.t) (env env' : Host)
    (st : HookState) (ch : string) :
  channel st = Some ch →
  let st1 := (onStatus p env st SUBSCRIBED).1 in
  let st2 := (announceEffect p st1).1 in
  let h := nextTimer st in
  let joinAction :=
    MindMapAction.mk (Some user_join) None None (Some (Props.userId p))
      (Some (Props.userName p))
      (Some (assignColor (random env) (collaborativeUsers st)))
      (Some (now env')) None in
  let st3 := (timerFires env' h st2).1 in
  (announceEffect p st1).2 = (clearAnnounceTimeout st).2 ++ [SetTimeout h 100]
  ∧ announceTimeoutRef st2 = Some h
  ∧ (sendResult env' = Return tt →
     (timerFires env' h st2).2 = [ChannelSend ch EVENT_USER_JOIN_TYPE joinAction]
     ∧ shouldAnnounceJoin st3 = false
     ∧ announceEffect p st3 = (st3, []))
  ∧ (∀ e, sendResult env' = Throw e →
     (timerFires env' h st2).2
     = [ChannelSend ch EVENT_USER_JOIN_TYPE joinAction;
        ConsoleWarn "Failed to announce user join:"]
     ∧ shouldAnnounceJoin st3 = true).
Proof.
  intros Hch st1 st2 h joinAction st3.
  assert (Hcolor : bool_decide
            (assignColor (random env) (collaborativeUsers st) = "") = false).
  { apply bool_decide_eq_false_2, palette_nonempty_strings, palette_member. }
  subst st3 st2 st1 h joinAction.
  unfold announceEffect, clearAnnounceTimeout, timerFires. simpl.
  rewrite Hch, Hcolor. simpl.
  destruct (announceTimeoutRef st) as [old|]; simpl;
    rewrite decide_True by done; simpl;
    (split_and!; [done | done | intros -> | intros e ->]; simpl;
     rewrite ?Hch; by split_and!).
Qed.

Lemma join_announced_once_after_delay_witness :
  let st2 :=
    (announceEffect exProps (onStatus exProps exHost exMounted SUBSCRIBED).1).1 in
  (timerFires exHost 1%nat st2).2
  = [ChannelSend "chat-collaboration:c1" EVENT_USER_JOIN_TYPE
       (MindMapAction.mk (Some user_join) None None (Some "u1") (Some "Alice")
          (Some "#3B82F6") (Some 1700000000000) None)]
  ∧ shouldAnnounceJoin (timerFires exHost 1%nat st2).1 = false.
Proof.
  intros st2.
  destruct (join_announced_once_after_delay exProps exHost exHost exMounted
              "chat-collaboration:c1" eq_refl)
    as (_ & _ & Hok & _).
  destruct (Hok eq_refl) as (Hsent & Hflag & _).
  split; [exact Hsent | exact Hflag].
Defined.

(** X8.  The cleanup of the announcement effect cancels the announcement:
    in a reachable state, after it the ref is empty, no timer is pending
    and no timer that comes due sends anything. *)
Theorem cancelled_announcement_never_sent (p : Props.t) (st : HookState) :
  reachable p st →
  announceTimeoutRef (announceCleanup st).1 = None
  ∧ pendingTimers (announceCleanup st).1 = []
  ∧ (∀ env h,
       timerFires env h (announceCleanup st).1 = ((announceCleanup st).1, [])).
Proof.
  intros Hreach. destruct (reachable_invariants p st Hreach) as (_ & _ & Hown).
  destruct (announceCleanup_timers st Hown) as [Href Hpending].
  split_and!; try done.
  intros env h. by apply timerFires_idle.
Qed.

Lemma cancelled_announcement_never_sent_witness :
  pendingTimers exScheduled ≠ []
  ∧ timerFires exHost 1%nat (announceCleanup exScheduled).1
    = ((announceCleanup exScheduled).1, []).
Proof.
  destruct (cancelled_announcement_never_sent exProps exScheduled
              exScheduled_reachable) as (_ & _ & Hidle).
  split; [discriminate | apply Hidle].
Defined.

(** ** How the registry updates compose *)

(** X9.  A leave undoes a join: removing a user right after upserting them
    gives what removing them from the original list gives.  A second leave
    of the same user changes nothing, and after a leave no entry has that
    id. *)
Theorem leave_after_join_and_leave_twice cb1 cb2 uid name color online_at current :
  (removeOnLeave cb2 uid (upsertOnJoin cb1 uid name color online_at current).1).1
  = (removeOnLeave cb2 uid current).1
  ∧ (removeOnLeave cb2 uid (removeOnLeave cb1 uid current).1).1
    = (removeOnLeave cb1 uid current).1
  ∧ uid ∉ userIds (removeOnLeave cb2 uid current).1.
Proof.
  rewrite !remove_updated, upsert_updated. split_and!.
  - rewrite filter_app, filter_cons_False by (simpl; tauto).
    by rewrite filter_nil, app_nil_r, filter_ids_idem.
  - apply filter_ids_idem.
  - apply filtered_ids_exclude.
Qed.

(** X10.  Updates of two different users do not get in each other's way:
    two leaves commute, a join and a leave commute, and two joins give the
    same entries in either order, up to the order of the list. *)
Theorem updates_of_distinct_users_commute cb uid1 uid2 n1 c1 o1 n2 c2 o2 current :
  uid1 ≠ uid2 →
  (removeOnLeave cb uid1 (removeOnLeave cb uid2 current).1).1
  = (removeOnLeave cb uid2 (removeOnLeave cb uid1 current).1).1
  ∧ (removeOnLeave cb uid2 (upsertOnJoin cb uid1 n1 c1 o1 current).1).1
    = (upsertOnJoin cb uid1 n1 c1 o1 (removeOnLeave cb uid2 current).1).1
  ∧ (upsertOnJoin cb uid1 n1 c1 o1 (upsertOnJoin cb uid2 n2 c2 o2 current).1).1
    ≡ₚ (upsertOnJoin cb uid2 n2 c2 o2 (upsertOnJoin cb uid1 n1 c1 o1 current).1).1.
Proof.
  intros Hne. rewrite ?remove_updated, ?upsert_updated, ?remove_updated. split_and!.
  - apply filter_ids_comm.
  - rewrite filter_app, filter_cons_True by (simpl; congruence).
    by rewrite filter_nil, filter_ids_comm.
  - rewrite !filter_app.
    rewrite !filter_cons_True by (simpl; congruence).
    rewrite !filter_nil, (filter_ids_comm uid1 uid2).
    rewrite <- !(assoc_L (++)). f_equiv. apply Permutation_swap.
Qed.

Lemma updates_of_distinct_users_commute_witness :
  (removeOnLeave None (Some "u2")
     (upsertOnJoin None (Some "u3") (Some "Carol") (Some "#10B981")
        "2023-11-14T22:13:20.000Z" (collaborativeUsers exConnected)).1).1
  = (upsertOnJoin None (Some "u3") (Some "Carol") (Some "#10B981")
       "2023-11-14T22:13:20.000Z"
       (removeOnLeave None (Some "u2") (collaborativeUsers exConnected)).1).1.
Proof.
  apply (updates_of_distinct_users_commute None (Some "u3") (Some "u2")
           (Some "Carol") (Some "#10B981") "2023-11-14T22:13:20.000Z"
           None None "" (collaborativeUsers exConnected)).
  discriminate.
Defined.

(** X11.  A join or a leave of one user leaves the entries of all other
    users, and their order, as they were; a leave only ever takes entries
    out, and a join makes the list at most one entry longer. *)
Theorem other_entries_untouched cb uid name color online_at current :
  filter (λ u, CollaborativeUser.id u ≠ uid)
    (upsertOnJoin cb uid name color online_at current).1
  = filter (λ u, CollaborativeUser.id u ≠ uid) current
  ∧ filter (λ u, CollaborativeUser.id u ≠ uid) (removeOnLeave cb uid current).1
    = filter (λ u, CollaborativeUser.id u ≠ uid) current
  ∧ (removeOnLeave cb uid current).1 `sublist_of` current
  ∧ (length (upsertOnJoin cb uid name color online_at current).1
     ≤ S (length current))%nat.
Proof.
  rewrite remove_updated, upsert_updated. split_and!.
  - rewrite filter_app, filter_cons_False by (simpl; tauto).
    by rewrite filter_nil, app_nil_r, filter_ids_idem.
  - apply filter_ids_idem.
  - apply sublist_filter.
  - rewrite length_app. simpl. pose proof (length_filter (λ u, CollaborativeUser.id u ≠ uid) current). lia.
Qed.

(** ** Colour assignment *)

(** X12.  The assigned colour is one a participant already has exactly when
    every palette colour is in use. *)
Theorem colour_collides_iff_palette_exhausted (r : MathRandom) (currentUsers : Users) :
  inUse currentUsers (assignColor r currentUsers)
  ↔ Forall (inUse currentUsers) USER_COLORS.
Proof.
  split.
  - intros Hused.
    destruct (decide (Forall (inUse currentUsers) USER_COLORS)) as [|Hsome]; [done|].
    apply not_Forall_Exists in Hsome; [|apply _].
    apply Exists_exists in Hsome as (c & Hc & Hfree).
    by destruct (assignColor_free r currentUsers c Hc Hfree) as (? & ? & _ & _ & ?).
  - intros Hall. rewrite Forall_forall in Hall. apply Hall, palette_member.
Qed.

Lemma colour_collides_iff_palette_exhausted_witness :
  inUse exFull (assignColor exRandom exFull)
  ∧ ¬ Forall (inUse (collaborativeUsers exConnected)) USER_COLORS.
Proof.
  split.
  - apply (colour_collides_iff_palette_exhausted exRandom exFull). by_compute.
  - intros Hall.
    apply (colour_collides_iff_palette_exhausted exRandom) in Hall.
    revert Hall. by_compute.
Defined.

(** X13.  The assigned colour depends on the participants only through the
    set of palette colours they use, not on their order, number or other
    fields; and as long as a palette colour is free it does not depend on
    the random number either. *)
Theorem colour_depends_on_colours_in_use (r r' : MathRandom) (us us' : Users) :
  (∀ c, c ∈ USER_COLORS → (inUse us c ↔ inUse us' c)) →
  availableColors us = availableColors us'
  ∧ assignColor r us = assignColor r us'
  ∧ (¬ Forall (inUse us) USER_COLORS → assignColor r us = assignColor r' us').
Proof.
  intros Hsame.
  assert (Hav : availableColors us = availableColors us').
  { unfold availableColors. induction USER_COLORS as [|c l IH]; [done|].
    rewrite !filter_cons.
    assert (Hc : inUse us c ↔ inUse us' c) by (apply Hsame; left).
    rewrite IH by (intros c' Hc'; apply Hsame; by right).
    destruct (decide (¬ inUse us c)), (decide (¬ inUse us' c)); tauto. }
  split_and!; [done | unfold assignColor; by rewrite Hav |].
  intros Hsome. apply not_Forall_Exists in Hsome; [|apply _].
  apply Exists_exists in Hsome as (c & Hc & Hfree).
  assert (Hin : c ∈ availableColors us) by by apply availableColors_spec.
  unfold assignColor. rewrite <- Hav.
  destruct (availableColors us) as [|c0 rest] eqn:Heq; [by apply elem_of_nil in Hin|].
  assert (Hc0 : c0 ∈ availableColors us) by (rewrite Heq; left).
  apply availableColors_spec in Hc0 as [Hpal _]. simpl.
  by rewrite bool_decide_eq_false_2 by by apply palette_nonempty_strings.
Qed.

Lemma colour_depends_on_colours_in_use_witness :
  assignColor exRandom (collaborativeUsers exConnected)
  = assignColor exRandom
      (collaborativeUsers exConnected ++ collaborativeUsers exConnected).
Proof.
  destruct (colour_depends_on_colours_in_use exRandom exRandom
              (collaborativeUsers exConnected)
              (collaborativeUsers exConnected ++ collaborativeUsers exConnected))
    as (_ & Hsame & _); [|exact Hsame].
  intros c _. unfold inUse. rewrite Exists_app. tauto.
Defined.

(** ** After teardown, and cursor updates *)

(** X14.  After the cleanup nothing more is announced.  Whatever channel
    is stored next, the announcement effect schedules nothing, the request
    having been withdrawn.  Once the refs have been synchronised,
    [broadcastAction] drops every action whatever channel its closure
    holds, and a second cleanup only removes the channel, without a second
    leave announcement. *)
Theorem silent_after_teardown (p : Props.t) (env env' : Host) (st : HookState)
    (action : ActionInput.t) :
  let st' := (cleanup p env st).1 in
  (∀ c, announceEffect p (setChannel c st') = (setChannel c st', []))
  ∧ (∀ c, broadcastAction p env' (setChannel c (syncRefs p st')) action
          = Return [])
  ∧ (cleanup p env' (syncRefs p st')).2 = [RemoveChannel (roomName (Props.chatId p))].
Proof.
  intros st'. subst st'. rewrite cleanup_state.
  split_and!.
  - by intros [ch|].
  - by intros [ch|].
  - rewrite cleanup_not_connected by done.
    rewrite announceCleanup_trace. simpl.
    by rewrite announceCleanup_ref.
Qed.

(** X15.  [updateCursorPosition] is dropped without a channel or while the
    connected ref is false; otherwise it sends one [cursor_move] envelope
    with exactly the given position, no [nodeId] and no [data], followed at
    most by warnings. *)
Theorem cursor_position_broadcast (p : Props.t) (env : Host) (st : HookState)
    (px py : Z) :
  (channel st = None ∨ isConnectedRef st = false →
   updateCursorPosition p env st px py = Return [])
  ∧ (∀ ch, channel st = Some ch → isConnectedRef st = true →
       ∃ fullAction warnings,
         updateCursorPosition p env st px py
         = Return (ChannelSend ch EVENT_ACTION_TYPE fullAction :: warnings)
         ∧ MindMapAction.type fullAction = Some cursor_move
         ∧ MindMapAction.position fullAction = Some {| x := px; y := py |}
         ∧ MindMapAction.nodeId fullAction = None
         ∧ MindMapAction.data fullAction = None
         ∧ Forall (λ e, ∃ msg, e = ConsoleWarn msg) warnings).
Proof.
  unfold updateCursorPosition, broadcastAction. split.
  - intros [-> | Hoff]; [done|]. rewrite Hoff. by destruct (channel st).
  - intros ch -> ->. simpl.
    destruct (sendResult env); simpl; eexists _, _;
      (split; [reflexivity|]); split_and!; try done; repeat constructor.
    by eexists.
Qed.

Lemma cursor_position_broadcast_witness :
  updateCursorPosition exProps exHost exMounted 120 80 = Return []
  ∧ ∃ fullAction warnings,
      updateCursorPosition exProps exHost exConnected 120 80
      = Return (ChannelSend "chat-collaboration:c1" EVENT_ACTION_TYPE fullAction
                  :: warnings)
      ∧ MindMapAction.position fullAction = Some {| x := 120; y := 80 |}.
Proof.
  destruct (cursor_position_broadcast exProps exHost exMounted 120 80)
    as (Hdrop & _).
  destruct (cursor_position_broadcast exProps exHost exConnected 120 80)
    as (_ & Hsend).
  split.
  - apply Hdrop. by right.
  - destruct (Hsend "chat-collaboration:c1" eq_refl eq_refl)
      as (fullAction & warnings & H1 & _ & H2 & _).
    by exists fullAction, warnings.
Defined.

(** ** The file-attachments hook *)

Section attachments.
Import FileAttachments.

Lemma dragStep_invariant s e :
  0 ≤ dragCounter s ∧ (isDragOver s = true → 1 ≤ dragCounter s) →
  0 ≤ dragCounter (dragStep s e)
  ∧ (isDragOver (dragStep s e) = true → 1 ≤ dragCounter (dragStep s e)).
Proof.
  intros [Hc Ho]. destruct e as [hasItems| | |files]; simpl.
  - split; [lia|]. intros _. lia.
  - unfold handleDragLeave. case_bool_decide; simpl; [done|]. split; [lia|]. intros _. lia.
  - done.
  - done.
Qed.

Lemma leaves_from_counter (n : nat) s :
  dragCounter s = Z.of_nat n →
  foldl dragStep s (replicate n DragLeave) = (if n is O then s else initialDrag).
Proof.
  revert s. induction n as [|n IH]; intros s Hc; [done|].
  simpl. unfold handleDragLeave at 1.
  destruct n as [|n].
  - rewrite bool_decide_eq_true_2 by lia. done.
  - rewrite bool_decide_eq_false_2 by lia.
    rewrite IH by (simpl; lia). done.
Qed.

Lemma enters_count (hs : list bool) s :
  dragCounter (foldl dragStep s (DragEnter <$> hs))
  = dragCounter s + Z.of_nat (length hs).
Proof.
  revert s. induction hs as [|h hs IH]; intros s; simpl; [lia|].
  rewrite IH. simpl. lia.
Qed.

(** X17.  The drag counter never goes below zero, and the drop overlay is
    shown only while it is at least one: a leave without a matching enter
    leaves the start state as it is, as many leaves as there were enters
    bring the hook back to the start state, and so does a drop. *)
Theorem drag_counter_never_negative (events : list DragEvent) :
  let s := foldl dragStep initialDrag events in
  0 ≤ dragCounter s
  ∧ (isDragOver s = true → 1 ≤ dragCounter s)
  ∧ handleDragLeave initialDrag = initialDrag
  ∧ (∀ hs : list bool,
       foldl dragStep initialDrag
         ((DragEnter <$> hs) ++ replicate (length hs) DragLeave)
       = initialDrag)
  ∧ (∀ files, dragStep s (Drop files) = initialDrag).
Proof.
  intros s. 
  assert (Hinv : 0 ≤ dragCounter s ∧ (isDragOver s = true → 1 ≤ dragCounter s)).
  { subst s. induction events as [|e events IH] using rev_ind; [done|].
    rewrite foldl_app. simpl. by apply dragStep_invariant. }
  destruct Hinv as [Hc Ho]. split_and!; try done.
  intros hs. rewrite foldl_app, leaves_from_counter.
  - destruct hs; done.
  - by rewrite enters_count.
Qed.

Lemma find_absent fileId (prev : list FileWithPreview) :
  fileId ∉ id <$> prev → list_find (λ f, id f = fileId) prev = None.
Proof.
  intros Habsent. apply list_find_None, Forall_forall.
  intros f Hf Hid. apply Habsent, list_elem_of_fmap. by exists f.
Qed.

Lemma keep_absent fileId (prev : list FileWithPreview) :
  fileId ∉ id <$> prev → filter (λ f, id f ≠ fileId) prev = prev.
Proof.
  induction prev as [|f prev IH]; intros Habsent; [done|].
  rewrite fmap_cons, not_elem_of_cons in Habsent. destruct Habsent as [Hf Hrest].
  rewrite filter_cons_True by congruence. by rewrite IH.
Qed.

Lemma first_match_cons fileId f (prev : list FileWithPreview) :
  snd <$> list_find (λ g, id g = fileId) (f :: prev)
  = if decide (id f = fileId) then Some f
    else snd <$> list_find (λ g, id g = fileId) prev.
Proof.
  simpl. destruct (decide (id f = fileId)); [done|].
  by destruct (list_find _ prev) as [[i g]|].
Qed.

Lemma revoked_then_kept fileId (prev : list FileWithPreview) :
  NoDup (id <$> prev) →
  (prev ≫= revocable)
  ≡ₚ (removeFile fileId prev).2 ++ ((removeFile fileId prev).1 ≫= revocable).
Proof.
  unfold removeFile. cbn [fst snd].
  induction prev as [|f prev IH]; intros Hnd; [done|].
  rewrite fmap_cons, NoDup_cons in Hnd. destruct Hnd as [Hf Hnd].
  rewrite first_match_cons, filter_cons, bind_cons.
  destruct (decide (id f = fileId)) as [Heq|Hne].
  - rewrite decide_False by tauto. subst fileId. by rewrite keep_absent.
  - rewrite decide_True by done. rewrite bind_cons, (IH Hnd).
    rewrite !(assoc_L (++)). f_equiv. apply Permutation_app_comm.
Qed.

(** X18.  [removeFile] leaves no file of the given id and keeps every other
    file in place.  For an id no pending file has, the list is unchanged
    and nothing is revoked.  With pairwise different ids, the preview URLs
    of the files before are exactly the ones revoked together with those of
    the files that remain: the preview of what is removed is released, and
    no preview of a file still listed is. *)
Theorem remove_file_releases_its_preview (fileId : string)
    (prev : list FileWithPreview) :
  let next := (removeFile fileId prev).1 in
  let revoked := (removeFile fileId prev).2 in
  (fileId ∉ id <$> next)
  ∧ filter (λ f, id f ≠ fileId) next = filter (λ f, id f ≠ fileId) prev
  ∧ (fileId ∉ id <$> prev → next = prev ∧ revoked = [])
  ∧ (NoDup (id <$> prev) →
     (prev ≫= revocable) ≡ₚ revoked ++ (next ≫= revocable)).
Proof.
  intros next revoked. split_and!.
  - intros (f & Hid & Hf)%list_elem_of_fmap.
    apply list_elem_of_filter in Hf as [Hne _]. by apply Hne.
  - subst next. unfold removeFile. simpl. by rewrite list_filter_filter_l.
  - intros Habsent. subst next revoked. unfold removeFile. simpl.
    by rewrite find_absent, keep_absent.
  - apply revoked_then_kept.
Qed.

Lemma drag_counter_never_negative_witness :
  let s :=
    foldl dragStep initialDrag
      [DragEnter true; DragEnter false; DragLeave; DragOver] in
  isDragOver s = true ∧ 1 ≤ dragCounter s.
Proof.
  intros s. split; [reflexivity|].
  apply (drag_counter_never_negative
           [DragEnter true; DragEnter false; DragLeave; DragOver]).
  reflexivity.
Defined.

Lemma remove_file_releases_its_preview_witness :
  (removeFile "zz" exFiles).1 = exFiles
  ∧ (exFiles ≫= revocable)
    ≡ₚ (removeFile "b2" exFiles).2 ++ ((removeFile "b2" exFiles).1 ≫= revocable).
Proof.
  destruct (remove_file_releases_its_preview "zz" exFiles) as (_ & _ & Hsame & _).
  destruct (remove_file_releases_its_preview "b2" exFiles) as (_ & _ & _ & Hperm).
  split.
  - apply Hsame. by_compute.
  - apply Hperm. by_compute.
Defined.
End attachments.

(** * Sample runs *)

(** [toISOString] on known instants, and at both ends of the range. *)
Example iso_epoch : JsDate.format 0 = "1970-01-01T00:00:00.000Z".
Proof. reflexivity. Qed.

Example iso_2023 : JsDate.format 1700000000000 = "2023-11-14T22:13:20.000Z".
Proof. reflexivity. Qed.

Example iso_leap_day : JsDate.format 951782400000 = "2000-02-29T00:00:00.000Z".
Proof. reflexivity. Qed.

Example iso_before_epoch : JsDate.format (-1) = "1969-12-31T23:59:59.999Z".
Proof. reflexivity. Qed.

Example iso_max : JsDate.format JsDate.maxTime = "+275760-09-13T00:00:00.000Z".
Proof. reflexivity. Qed.

Example iso_min : JsDate.format (- JsDate.maxTime) = "-271821-04-20T00:00:00.000Z".
Proof. reflexivity. Qed.

Example iso_out_of_range :
  JsDate.toISOString (JsDate.construct (Some (JsDate.maxTime + 1))) = Throw RangeError.
Proof. reflexivity. Qed.

(** The session of [u1]: connect, receive the first palette colour,
    announce after the delay; then [u2] joins, moves the cursor to
    (120, 80) and leaves. *)
Example session_effects :
  (run exProps (initialState exProps)
     [ (exHost, Mount); (exHost, ChannelStatus SUBSCRIBED); (exHost, Commit);
       (exHost, AnnounceEffect); (exHost, TimerFires 1%nat);
       (exHost, InboundJoin (PObject exJoin));
       (exHost, InboundAction (PObject exCursor));
       (exHost, InboundLeave (PObject exLeave)) ]).2
  = [ CreateChannel "chat-collaboration:c1";
      Subscribe "chat-collaboration:c1";
      ConsoleLog "Realtime collaboration connected to: chat-collaboration:c1";
      SetTimeout 1%nat 100;
      ChannelSend "chat-collaboration:c1" "user_join"
        (MindMapAction.mk (Some user_join) None None (Some "u1") (Some "Alice")
           (Some "#3B82F6") (Some 1700000000000) None);
      CallOnPresenceChange 2%nat
        [CollaborativeUser.mk (Some "u2") (Some "Bob") (Some "#3B82F6")
           "2023-11-14T22:13:20.000Z"];
      CallOnAction 1%nat (PObject exCursor);
      CallOnPresenceChange 2%nat [] ].
Proof. reflexivity. Qed.

(** The tab of [u2] closes: the leave goes out through the beacon. *)
Example session_unload :
  let pB := Props.mk "c1" "u2" "Bob" None None in
  let stB :=
    (run pB (initialState pB)
       [ (exHost, Mount); (exHost, ChannelStatus SUBSCRIBED); (exHost, Commit) ]).1 in
  (cleanup pB exHost stB).2
  = [ SendBeacon "/api/collaboration/beacon" "c1"
        (MindMapAction.mk (Some user_leave) None None (Some "u2") (Some "Bob")
           (Some "#3B82F6") (Some 1700000000000) None);
      RemoveChannel "chat-collaboration:c1" ].
Proof. reflexivity. Qed.
